(** * Secure Messenger: the real-time synchronisation subsystem

    A shallow embedding of
    - the Redux slices ([connectionSlice.ts], [chatsSlice.ts],
      [messagesSlice.ts]),
    - the client connection manager ([services/websocket.ts]),
    - the SQLite store commands and queries ([electron/db.js]),
    - the IPC handlers ([electron/main.js]), the thunks and the chat list
      handlers of the renderer, the preload script,
    - the sync simulator ([electron/websocket-server.js]),
    together with the properties the specification states about them and
    further properties of the code.

    Conventions.  JavaScript numbers that hold counters and millisecond
    timestamps are integers: [Z] for timestamps and unread counters, [nat]
    for the reconnect counter (it starts at 0 and is only incremented or
    reset).  [Date.now()] is an input of every operation that reads the
    clock.  Timer and socket handles are [positive], so a handle is always
    truthy, as the numeric handles of the browser are. *)

From stdpp Require Import gmap strings list fin_maps.
From stdpp Require sorting.
From Stdlib Require Import ZArith Sorted.

Local Open Scope Z_scope.

(** ** connectionSlice.ts *)

Module ConnectionSlice.

Inductive ConnectionStatus := Connected | Connecting | Disconnected | Error.

Record ConnectionState := mkConnectionState {
  status : ConnectionStatus;
  lastHeartbeat : Z;
  reconnectAttempt : nat;
  error : option string;
}.

Definition initialState : ConnectionState :=
  mkConnectionState Disconnected 0 0%nat None.

Definition setConnecting (state : ConnectionState) : ConnectionState :=
  mkConnectionState Connecting (lastHeartbeat state) (reconnectAttempt state) None.

Definition setConnected (now : Z) (state : ConnectionState) : ConnectionState :=
  mkConnectionState Connected now 0%nat None.

Definition setDisconnected (state : ConnectionState) : ConnectionState :=
  mkConnectionState Disconnected (lastHeartbeat state)
    (reconnectAttempt state + 1)%nat (error state).

Definition setConnectionError (payload : string) (state : ConnectionState)
  : ConnectionState :=
  mkConnectionState Error (lastHeartbeat state) (reconnectAttempt state)
    (Some payload).

Definition updateHeartbeat (now : Z) (state : ConnectionState) : ConnectionState :=
  mkConnectionState (status state) now (reconnectAttempt state) (error state).

Definition resetConnection (_ : ConnectionState) : ConnectionState := initialState.

End ConnectionSlice.

(** ** chatsSlice.ts *)

Module ChatsSlice.

Record Chat := mkChat {
  id : string;
  title : string;
  lastMessageAt : Z;
  unreadCount : Z;
}.

Record ChatsState := mkChatsState {
  items : list Chat;
  total : Z;
  hasMore : bool;
  currentOffset : Z;
  loading : bool;
  error : option string;
}.

Definition initialState : ChatsState := mkChatsState [] 0 true 0 false None.

(** [state.items.find(p)] followed by a mutation of the draft it returns:
    the first element that satisfies [p] is updated where it stands. *)
Fixpoint mutate_found (p : Chat -> bool) (f : Chat -> Chat) (l : list Chat)
  : list Chat :=
  match l with
  | [] => []
  | c :: r => if p c then f c :: r else c :: mutate_found p f r
  end.

Definition with_items (l : list Chat) (state : ChatsState) : ChatsState :=
  mkChatsState l (total state) (hasMore state) (currentOffset state)
    (loading state) (error state).

Definition resetChats (_ : ChatsState) : ChatsState := initialState.

Definition incrementChatUnread (now : Z) (payload : string) (state : ChatsState)
  : ChatsState :=
  with_items
    (mutate_found (fun c => String.eqb (id c) payload)
       (fun chat => mkChat (id chat) (title chat) now (unreadCount chat + 1))
       (items state))
    state.

Definition markChatRead (payload : string) (state : ChatsState) : ChatsState :=
  with_items
    (mutate_found (fun c => String.eqb (id c) payload)
       (fun chat => mkChat (id chat) (title chat) (lastMessageAt chat) 0)
       (items state))
    state.

(** The reducers of [fetchChats.pending] and [fetchChats.fulfilled]. *)
Definition fetchChats_pending (state : ChatsState) : ChatsState :=
  mkChatsState (items state) (total state) (hasMore state) (currentOffset state)
    true None.

Definition fetchChats_fulfilled (chats : list Chat) (tot : Z) (more : bool)
    (state : ChatsState) : ChatsState :=
  mkChatsState chats tot more (currentOffset state) false (error state).

(** The unread counter the chat list shows for chat [x]: that of the entry
    [find] returns. *)
Definition unreadCountOf (x : string) (state : ChatsState) : option Z :=
  unreadCount <$> List.find (fun c => String.eqb (id c) x) (items state).

Definition lastMessageAtOf (x : string) (state : ChatsState) : option Z :=
  lastMessageAt <$> List.find (fun c => String.eqb (id c) x) (items state).

End ChatsSlice.

(** ** messagesSlice.ts *)

Module MessagesSlice.

Record Message := mkMessage {
  id : string;
  chatId : string;
  ts : Z;
  sender : string;
  body : string;
}.

Record MessagesState := mkMessagesState {
  items : list Message;
  selectedChatId : option string;
  total : Z;
  hasMore : bool;
  currentOffset : Z;
  loading : bool;
  error : option string;
}.

Definition initialState : MessagesState :=
  mkMessagesState [] None 0 true 0 false None.

Definition setSelectedChat (payload : string) (state : MessagesState)
  : MessagesState :=
  mkMessagesState [] (Some payload) (total state) (hasMore state) 0
    (loading state) None.

(** [state.selectedChatId === action.payload.chatId]: [null] equals no string. *)
Definition addMessage (payload : Message) (state : MessagesState) : MessagesState :=
  match selectedChatId state with
  | Some sel =>
      if String.eqb sel (chatId payload)
      then mkMessagesState (items state ++ [payload]) (selectedChatId state)
             (total state) (hasMore state) (currentOffset state)
             (loading state) (error state)
      else state
  | None => state
  end.

Definition clearMessages (state : MessagesState) : MessagesState :=
  mkMessagesState [] None (total state) (hasMore state) 0
    (loading state) (error state).

End MessagesSlice.

(** ** store.ts: the root state (the [ui] slice is not touched by the
    synchronisation code and is left out) *)

Record RootState := mkRootState {
  chats : ChatsSlice.ChatsState;
  messages : MessagesSlice.MessagesState;
  connection : ConnectionSlice.ConnectionState;
}.

Definition initialRootState : RootState :=
  mkRootState ChatsSlice.initialState MessagesSlice.initialState
    ConnectionSlice.initialState.

Definition on_chats (f : ChatsSlice.ChatsState -> ChatsSlice.ChatsState)
    (s : RootState) : RootState :=
  mkRootState (f (chats s)) (messages s) (connection s).

Definition on_messages (f : MessagesSlice.MessagesState -> MessagesSlice.MessagesState)
    (s : RootState) : RootState :=
  mkRootState (chats s) (f (messages s)) (connection s).

Definition on_connection
    (f : ConnectionSlice.ConnectionState -> ConnectionSlice.ConnectionState)
    (s : RootState) : RootState :=
  mkRootState (chats s) (messages s) (f (connection s)).

(** ** services/websocket.ts: the connection manager

    The manager runs on the browser's event loop.  The host part of the
    state holds what the platform owns: the sockets the manager has
    constructed with their [readyState], the timers it has armed with
    [setTimeout] and [setInterval], and the frames it has sent.  Every
    socket carries the same four handlers, closures over [this], and every
    timer callback is one of three closures over [this]; a timer therefore
    records which of the three it runs. *)

Module WebSocketManager.

Import ConnectionSlice.

Definition WS_URL : string := "ws://localhost:9000".
Definition HEARTBEAT_INTERVAL : Z := 10000.
Definition HEARTBEAT_TIMEOUT : Z := 5000.
Definition maxReconnectAttempts : nat := 5.

Record MessageData := mkMessageData {
  chatId : string;
  messageId : string;
  ts : Z;
  sender : string;
  body : string;
}.

Record WSMessage := mkWSMessage {
  type : string;
  data : MessageData;
}.

Inductive ReadyState := CONNECTING | OPEN | CLOSING | CLOSED.

#[global] Instance ReadyState_eq_dec : EqDecision ReadyState.
Proof. solve_decision. Defined.

Inductive TimerCallback :=
| ReconnectDelay      (* the closure armed by [scheduleReconnect] *)
| HeartbeatPing       (* the [setInterval] closure of [startHeartbeat] *)
| HeartbeatExpiry.    (* the [setTimeout] closure armed after each PING *)

Record Timer := mkTimer {
  callback : TimerCallback;
  delay : Z;
  repeats : bool;
}.

(** The private fields of the class. *)
Record Manager := mkManager {
  ws : option positive;
  reconnectAttempt : nat;
  reconnectTimeout : option positive;
  heartbeatInterval : option positive;
  heartbeatTimeout : option positive;
}.

Record Host := mkHost {
  sockets : gmap positive ReadyState;
  timers : gmap positive Timer;
  nextSocket : positive;
  nextTimer : positive;
  sent : list (positive * string);
}.

Record World := mkWorld {
  this : Manager;
  store : RootState;
  host : Host;
}.

Definition initialWorld : World :=
  mkWorld (mkManager None 0 None None None) initialRootState
    (mkHost ∅ ∅ 1%positive 1%positive []).

(** *** A state monad for method bodies *)

Definition Run (A : Type) : Type := World -> A * World.

#[global] Instance Run_ret : MRet Run := fun A (a : A) w => (a, w).

#[global] Instance Run_bind : MBind Run :=
  fun A B (k : A -> Run B) (c : Run A) w => let (a, w') := c w in k a w'.

Definition exec {A} (c : Run A) (w : World) : World := snd (c w).

Definition getThis : Run Manager := fun w => (this w, w).

Definition setThis (f : Manager -> Manager) : Run unit :=
  fun w => (tt, mkWorld (f (this w)) (store w) (host w)).

Definition setHost (f : Host -> Host) : Run unit :=
  fun w => (tt, mkWorld (this w) (store w) (f (host w))).

(** [store.dispatch(action)] *)
Definition dispatch (reducer : RootState -> RootState) : Run unit :=
  fun w => (tt, mkWorld (this w) (reducer (store w)) (host w)).

(** Field assignments. *)
Definition assign_ws (v : option positive) : Run unit :=
  setThis (fun m => mkManager v (reconnectAttempt m) (reconnectTimeout m)
                      (heartbeatInterval m) (heartbeatTimeout m)).

Definition assign_reconnectAttempt (v : nat) : Run unit :=
  setThis (fun m => mkManager (ws m) v (reconnectTimeout m)
                      (heartbeatInterval m) (heartbeatTimeout m)).

Definition assign_reconnectTimeout (v : option positive) : Run unit :=
  setThis (fun m => mkManager (ws m) (reconnectAttempt m) v
                      (heartbeatInterval m) (heartbeatTimeout m)).

Definition assign_heartbeatInterval (v : option positive) : Run unit :=
  setThis (fun m => mkManager (ws m) (reconnectAttempt m) (reconnectTimeout m)
                      v (heartbeatTimeout m)).

Definition assign_heartbeatTimeout (v : option positive) : Run unit :=
  setThis (fun m => mkManager (ws m) (reconnectAttempt m) (reconnectTimeout m)
                      (heartbeatInterval m) v).

(** *** Platform primitives *)

(** [setTimeout(cb, ms)] and [setInterval(cb, ms)]: a fresh handle. *)
Definition arm (cb : TimerCallback) (ms : Z) (rep : bool) : Run positive :=
  fun w =>
    let h := host w in
    let t := nextTimer h in
    (t, mkWorld (this w) (store w)
          (mkHost (sockets h) (<[t := mkTimer cb ms rep]> (timers h))
             (nextSocket h) (Pos.succ t) (sent h))).

Definition setTimeout (cb : TimerCallback) (ms : Z) : Run positive := arm cb ms false.
Definition setInterval (cb : TimerCallback) (ms : Z) : Run positive := arm cb ms true.

(** [if (handle) clearTimeout(handle)] (and [clearInterval]): clearing a
    handle that already fired or was cleared does nothing. *)
Definition clearIfSet (handle : option positive) : Run unit :=
  match handle with
  | Some t =>
      setHost (fun h => mkHost (sockets h) (delete t (timers h))
                          (nextSocket h) (nextTimer h) (sent h))
  | None => mret tt
  end.

(** [new WebSocket(WS_URL)]: a fresh socket, [readyState] CONNECTING. *)
Definition newWebSocket : Run positive :=
  fun w =>
    let h := host w in
    let s := nextSocket h in
    (s, mkWorld (this w) (store w)
          (mkHost (<[s := CONNECTING]> (sockets h)) (timers h)
             (Pos.succ s) (nextTimer h) (sent h))).

Definition setReadyState (s : positive) (r : ReadyState) : Run unit :=
  setHost (fun h => mkHost (<[s := r]> (sockets h)) (timers h)
                      (nextSocket h) (nextTimer h) (sent h)).

Definition readyState (s : positive) : Run (option ReadyState) :=
  fun w => (sockets (host w) !! s, w).

(** [ws.close()]: starts the closing handshake of a socket that is
    connecting or open; the close event is delivered later. *)
Definition close (s : positive) : Run unit :=
  r ← readyState s;
  match r with
  | Some CONNECTING | Some OPEN => setReadyState s CLOSING
  | _ => mret tt
  end.

(** [ws.send(JSON.stringify({ type }))] on an open socket. *)
Definition send (s : positive) (frameType : string) : Run unit :=
  setHost (fun h => mkHost (sockets h) (timers h) (nextSocket h) (nextTimer h)
                      (sent h ++ [(s, frameType)])).

(** *** Methods *)

Definition stopHeartbeat : Run unit :=
  m ← getThis;
  clearIfSet (heartbeatInterval m);;
  clearIfSet (heartbeatTimeout m).

Definition startHeartbeat : Run unit :=
  t ← setInterval HeartbeatPing HEARTBEAT_INTERVAL;
  assign_heartbeatInterval (Some t).

Definition handlePong (now : Z) : Run unit :=
  m ← getThis;
  clearIfSet (heartbeatTimeout m);;
  dispatch (on_connection (updateHeartbeat now)).

Definition scheduleReconnect : Run unit :=
  m ← getThis;
  let baseDelay := 2 ^ Z.of_nat (reconnectAttempt m) in
  let delay := Z.min (baseDelay * 1000) 30000 in
  if (reconnectAttempt m <? maxReconnectAttempts)%nat then
    t ← setTimeout ReconnectDelay delay;
    assign_reconnectTimeout (Some t)
  else
    dispatch (on_connection
      (setConnectionError "Max reconnection attempts reached. Please restart app.")).

(** [connect()].  [thrown] is what the [try] block throws, if anything:
    [None] when [new WebSocket(WS_URL)] returns, [Some msg] when it throws
    an error whose message is [msg]. *)
Definition connect (thrown : option string) : Run unit :=
  dispatch (on_connection setConnecting);;
  match thrown with
  | None =>
      s ← newWebSocket;
      assign_ws (Some s)
  | Some errorMsg =>
      dispatch (on_connection (setConnectionError errorMsg));;
      scheduleReconnect
  end.

Definition disconnect : Run unit :=
  stopHeartbeat;;
  m ← getThis;
  clearIfSet (reconnectTimeout m);;
  match ws m with
  | Some s => close s;; assign_ws None
  | None => mret tt
  end.

Definition handleNewMessage (now : Z) (d : MessageData) : Run unit :=
  dispatch (on_chats (ChatsSlice.incrementChatUnread now (chatId d)));;
  dispatch (on_messages (MessagesSlice.addMessage
    (MessagesSlice.mkMessage (messageId d) (chatId d) (ts d) (sender d) (body d)))).

Definition handleMessage (now : Z) (message : WSMessage) : Run unit :=
  if String.eqb (type message) "NEW_MESSAGE" then handleNewMessage now (data message)
  else if String.eqb (type message) "PONG" then handlePong now
  else mret tt.

Definition getStatus (w : World) : string :=
  match ws (this w) with
  | None => "disconnected"
  | Some s =>
      match sockets (host w) !! s with
      | Some CONNECTING => "connecting"
      | Some OPEN => "connected"
      | _ => "disconnected"
      end
  end.

(** *** Socket handlers installed by [connect] *)

Definition onopen (now : Z) : Run unit :=
  dispatch (on_connection (setConnected now));;
  assign_reconnectAttempt 0;;
  startHeartbeat.

Definition onmessage (now : Z) (message : WSMessage) : Run unit :=
  handleMessage now message.

Definition onclose : Run unit :=
  dispatch (on_connection setDisconnected);;
  stopHeartbeat;;
  scheduleReconnect.

Definition onerror : Run unit :=
  dispatch (on_connection (setConnectionError "WebSocket error: [object Event]")).

(** *** Timer callbacks *)

Definition timerBody (cb : TimerCallback) (thrown : option string) : Run unit :=
  match cb with
  | ReconnectDelay =>
      m ← getThis;
      assign_reconnectAttempt (reconnectAttempt m + 1);;
      connect thrown
  | HeartbeatPing =>
      m ← getThis;
      match ws m with
      | Some s =>
          r ← readyState s;
          match r with
          | Some OPEN =>
              send s "PING";;
              t ← setTimeout HeartbeatExpiry HEARTBEAT_TIMEOUT;
              assign_heartbeatTimeout (Some t)
          | _ => mret tt
          end
      | None => mret tt
      end
  | HeartbeatExpiry =>
      disconnect;;
      connect thrown
  end.

(** *** The event loop

    One turn of the event loop runs one callback to completion.  [step]
    is [None] when the platform cannot deliver the event in that state: an
    open event needs a connecting socket, a message an open one, an error
    or close event a socket that is not closed yet, and a timer fires only
    while it is armed (a timeout is disarmed as it fires, an interval
    stays armed).  A message event carries the frame as [JSON.parse]
    returns it. *)

Inductive Event :=
| CallConnect (thrown : option string)
| CallDisconnect
| SocketOpen (s : positive)
| SocketMessage (s : positive) (message : WSMessage)
| SocketError (s : positive)
| SocketClose (s : positive)
| TimerFires (t : positive) (thrown : option string).

Definition step (now : Z) (e : Event) (w : World) : option World :=
  match e with
  | CallConnect thrown => Some (exec (connect thrown) w)
  | CallDisconnect => Some (exec disconnect w)
  | SocketOpen s =>
      match sockets (host w) !! s with
      | Some CONNECTING => Some (exec (setReadyState s OPEN;; onopen now) w)
      | _ => None
      end
  | SocketMessage s message =>
      match sockets (host w) !! s with
      | Some OPEN => Some (exec (onmessage now message) w)
      | _ => None
      end
  | SocketError s =>
      match sockets (host w) !! s with
      | Some CONNECTING | Some OPEN | Some CLOSING => Some (exec onerror w)
      | _ => None
      end
  | SocketClose s =>
      match sockets (host w) !! s with
      | Some CONNECTING | Some OPEN | Some CLOSING =>
          Some (exec (setReadyState s CLOSED;; onclose) w)
      | _ => None
      end
  | TimerFires t thrown =>
      match timers (host w) !! t with
      | Some tm =>
          Some (exec ((if repeats tm then mret tt else clearIfSet (Some t));;
                      timerBody (callback tm) thrown) w)
      | None => None
      end
  end.

Fixpoint run (trace : list (Z * Event)) (w : World) : option World :=
  match trace with
  | [] => Some w
  | (now, e) :: rest =>
      match step now e w with
      | Some w' => run rest w'
      | None => None
      end
  end.

(** Events the platform raises on its own, as opposed to calls of the
    public methods. *)
Definition isCall (e : Event) : bool :=
  match e with
  | CallConnect _ | CallDisconnect => true
  | _ => false
  end.

Definition isCallConnect (e : Event) : bool :=
  match e with
  | CallConnect _ => true
  | _ => false
  end.

End WebSocketManager.

(** ** electron/db.js: the SQLite store

    A table is the list of its rows in rowid order.  The schema of
    [initializeDatabase] gives both tables a primary key on [id], makes
    every column of [messages] and the timestamp of [chats] NOT NULL, and
    declares [messages.chatId] a foreign key into [chats] with
    [foreign_keys = ON].  Column values are typed, hence never NULL.

    No function of the module but [seedDatabase] opens a transaction, so
    every [run] commits on its own.  A statement that fails changes
    nothing.  [run] throws either because a constraint of the schema is
    violated, which the table contents decide, or because the engine
    reports a condition of its own (database locked, disk full, I/O
    error); the latter is an input of the model, [Some msg] when the
    engine raises [msg] for that statement. *)

Module Db.

Record ChatRow := mkChatRow {
  id : string;
  title : string;
  lastMessageAt : Z;
  unreadCount : Z;
}.

Record MessageRow := mkMessageRow {
  mid : string;
  chatId : string;
  ts : Z;
  sender : string;
  body : string;
}.

Record Database := mkDatabase {
  chats : list ChatRow;
  messages : list MessageRow;
}.

(** What a call leaves behind: whether it returned or threw. *)
Inductive Outcome := Returned | Threw (message : string).

Definition Statement : Type := Database -> string + Database.

(** [stmt.run(...)] under the engine condition [cond]. *)
Definition runStatement (cond : option string) (stmt : Statement) : Statement :=
  fun d =>
    match cond with
    | Some msg => inl msg
    | None => stmt d
    end.

Definition hasChat (chatId : string) (d : Database) : bool :=
  existsb (fun c => String.eqb (id c) chatId) (chats d).

Definition hasMessage (messageId : string) (d : Database) : bool :=
  existsb (fun m => String.eqb (mid m) messageId) (messages d).

(** INSERT INTO messages (id, chatId, ts, sender, body) VALUES (?, ?, ?, ?, ?) *)
Definition sqlInsertMessage (row : MessageRow) : Statement :=
  fun d =>
    if hasMessage (mid row) d then inl "UNIQUE constraint failed: messages.id"
    else if negb (hasChat (chatId row) d) then inl "FOREIGN KEY constraint failed"
    else inr (mkDatabase (chats d) (messages d ++ [row])).

Definition updateWhereId (chatId : string) (f : ChatRow -> ChatRow) : Statement :=
  fun d =>
    inr (mkDatabase
           (map (fun c => if String.eqb (id c) chatId then f c else c) (chats d))
           (messages d)).

(** UPDATE chats SET lastMessageAt = ?, unreadCount = unreadCount + 1 WHERE id = ? *)
Definition sqlBumpChat (ts : Z) (chatId : string) : Statement :=
  updateWhereId chatId
    (fun c => mkChatRow (id c) (title c) ts (unreadCount c + 1)).

(** UPDATE chats SET lastMessageAt = ? WHERE id = ? *)
Definition sqlTouchChat (ts : Z) (chatId : string) : Statement :=
  updateWhereId chatId
    (fun c => mkChatRow (id c) (title c) ts (unreadCount c)).

(** UPDATE chats SET unreadCount = 0 WHERE id = ? *)
Definition sqlResetUnread (chatId : string) : Statement :=
  updateWhereId chatId
    (fun c => mkChatRow (id c) (title c) (lastMessageAt c) 0).

(** ORDER BY lastMessageAt DESC: rows with equal timestamps stay in rowid
    order, the order in which a scan of [idx_chats_lastMessageAt]
    yields them. *)
Fixpoint insertDesc (c : ChatRow) (l : list ChatRow) : list ChatRow :=
  match l with
  | [] => [c]
  | d :: r =>
      if lastMessageAt d <=? lastMessageAt c then c :: d :: r
      else d :: insertDesc c r
  end.

Definition orderByLastMessageAtDesc (l : list ChatRow) : list ChatRow :=
  foldr insertDesc [] l.

Definition newerFirst (a b : ChatRow) : Prop := lastMessageAt b ≤ lastMessageAt a.

(** LIMIT ? OFFSET ?: a negative LIMIT means no limit, a negative OFFSET
    means none. *)
Definition limitOffset {A} (limit offset : Z) (l : list A) : list A :=
  let rest := drop (Z.to_nat offset) l in
  if limit <? 0 then rest else take (Z.to_nat limit) rest.

Record ChatsPage := mkChatsPage {
  page_chats : list ChatRow;
  page_total : Z;
  page_hasMore : bool;
}.

(** [getChats(offset, limit)]: a query changes nothing; [cond] is the
    condition the engine raises, if any, and the error is rethrown. *)
Definition getChats (cond : option string) (offset limit : Z) (d : Database)
  : string + ChatsPage :=
  match cond with
  | Some msg => inl msg
  | None =>
      let total := Z.of_nat (length (chats d)) in
      let rows := limitOffset limit offset (orderByLastMessageAtDesc (chats d)) in
      inr (mkChatsPage rows total (offset + limit <? total))
  end.

(** [markChatAsRead(chatId)] *)
Definition markChatAsRead (cond : option string) (chatId : string) (d : Database)
  : Outcome * Database :=
  match runStatement cond (sqlResetUnread chatId) d with
  | inr d' => (Returned, d')
  | inl msg => (Threw msg, d)
  end.

(** [insertMessage(chatId, messageId, ts, sender, body, increment_unread)]:
    [cond1] and [cond2] are the engine conditions of the two [run]
    calls, in program order. *)
Definition insertMessage (cond1 cond2 : option string)
    (chatId messageId : string) (ts : Z) (sender body : string)
    (increment_unread : bool) (d : Database) : Outcome * Database :=
  match runStatement cond1
          (sqlInsertMessage (mkMessageRow messageId chatId ts sender body)) d with
  | inl msg => (Threw msg, d)
  | inr d1 =>
      let updateChat :=
        if increment_unread then sqlBumpChat ts chatId else sqlTouchChat ts chatId in
      match runStatement cond2 updateChat d1 with
      | inl msg => (Threw msg, d1)
      | inr d2 => (Returned, d2)
      end
  end.

(** *** Message history *)

(** WHERE chatId = ? *)
Definition messagesOfChat (c : string) (d : Database) : list MessageRow :=
  List.filter (fun m => String.eqb (chatId m) c) (messages d).

(** ORDER BY ts DESC, rows with equal timestamps in rowid order. *)
Fixpoint insertTsDesc (m : MessageRow) (l : list MessageRow) : list MessageRow :=
  match l with
  | [] => [m]
  | n :: r =>
      if ts n <=? ts m then m :: n :: r
      else n :: insertTsDesc m r
  end.

Definition orderByTsDesc (l : list MessageRow) : list MessageRow :=
  foldr insertTsDesc [] l.

Definition olderFirst (a b : MessageRow) : Prop := ts a ≤ ts b.

Record MessagesPage := mkMessagesPage {
  page_messages : list MessageRow;
  page_messages_total : Z;
  page_messages_hasMore : bool;
}.

(** [getMessages(chatId, offset, limit)]: the window is cut from the
    newest-first order and reversed before it is returned. *)
Definition getMessages (cond : option string) (c : string) (offset limit : Z)
    (d : Database) : string + MessagesPage :=
  match cond with
  | Some msg => inl msg
  | None =>
      let total := Z.of_nat (length (messagesOfChat c d)) in
      let rows := limitOffset limit offset (orderByTsDesc (messagesOfChat c d)) in
      inr (mkMessagesPage (reverse rows) total (offset + limit <? total))
  end.

(** The schema constraints as a predicate on table contents. *)
Definition wellFormed (d : Database) : Prop :=
  NoDup (id <$> chats d) ∧ NoDup (mid <$> messages d) ∧
  ∀ m, m ∈ messages d → hasChat (chatId m) d = true.

End Db.

(** ** Scenarios: event application *)

Module Scenario.

Import WebSocketManager.

(** The socket delivers the frames of [frames] in order; each is handled
    by [onmessage] at the clock value paired with it. *)
Definition deliver (frames : list (Z * WSMessage)) (w : World) : World :=
  foldl (fun acc f => exec (onmessage f.1 f.2) acc) w frames.

Definition newMessage (chatId messageId : string) (ts : Z) : WSMessage :=
  mkWSMessage "NEW_MESSAGE" (mkMessageData chatId messageId ts "user_001" "Got it, thanks!").

(** Whether a frame is a NEW_MESSAGE event for chat [x]. *)
Definition targets (x : string) (message : WSMessage) : bool :=
  String.eqb (type message) "NEW_MESSAGE" && String.eqb (chatId (data message)) x.

Definition withChats (l : list ChatsSlice.Chat) (selected : option string) : World :=
  mkWorld (this initialWorld)
    (mkRootState (ChatsSlice.with_items l ChatsSlice.initialState)
       (MessagesSlice.mkMessagesState [] selected 0 true 0 false None)
       ConnectionSlice.initialState)
    (host initialWorld).

Definition twoChats : list ChatsSlice.Chat :=
  [ChatsSlice.mkChat "a" "Chat 1" 10 0; ChatsSlice.mkChat "b" "Chat 2" 5 2].

(** A chat table of [n] rows with distinct ids and repeated timestamps. *)
Definition seededChats (n : nat) : list Db.ChatRow :=
  (fun i => Db.mkChatRow (String (Ascii.ascii_of_nat i) "c")
              "Chat" (Z.of_nat ((i * 37) mod 50)) 0) <$> seq 0 n.

Definition seededDb (n : nat) : Db.Database := Db.mkDatabase (seededChats n) [].

(** A session that opens: [connect()], then the open event of socket 1. *)
Definition openSession : list (Z * WebSocketManager.Event) :=
  [(0, CallConnect None); (40, SocketOpen 1)].

(** The caller disconnects; the close event of the socket follows and the
    timer it arms fires one second later. *)
Definition afterDisconnect : list (Z * WebSocketManager.Event) :=
  [(5000, SocketClose 1); (6000, TimerFires 2 None)].

(** Socket [s] fails to connect: the error event, then the close event. *)
Definition failure (now : Z) (s : positive) : list (Z * WebSocketManager.Event) :=
  [(now, SocketError s); (now, SocketClose s)].

(** Five consecutive failed attempts of a fresh manager: sockets 1 to 5,
    each retry started by the reconnect timer of the failure before it. *)
Definition fiveFailures : list (Z * WebSocketManager.Event) :=
  [(0, CallConnect None)]
  ++ failure 10 1 ++ [(1010, TimerFires 1 None)]
  ++ failure 1020 2 ++ [(3020, TimerFires 2 None)]
  ++ failure 3030 3 ++ [(7030, TimerFires 3 None)]
  ++ failure 7040 4 ++ [(15040, TimerFires 4 None)]
  ++ failure 15050 5.

(** The sixth attempt, started by the fifth reconnect timer, fails too. *)
Definition sixFailures : list (Z * WebSocketManager.Event) :=
  fiveFailures ++ [(31050, TimerFires 5 None)] ++ failure 31060 6.

(** No timer is armed and every socket the manager made is closed. *)
Definition quiescent (w : World) : Prop :=
  timers (host w) = ∅ ∧ ∀ s r, sockets (host w) !! s = Some r → r = CLOSED.

Definition storeWithOneChat : Db.Database :=
  Db.mkDatabase [Db.mkChatRow "c1" "Chat 1" 100 0] [].

End Scenario.

(** ** electron/main.js: the IPC handlers

    A handler never throws: it answers [{ success: true, data }] when the
    store call returns and [{ success: false, error }] with the message of
    the error when it throws. *)

Module Main.

Inductive Reply (A : Type) :=
| Success (data : A)
| Failure (error : string).

Arguments Success {A} data.
Arguments Failure {A} error.

(** ipcMain.handle('GET_CHATS', ...) *)
Definition GET_CHATS (cond : option string) (offset limit : Z) (d : Db.Database)
  : Reply Db.ChatsPage :=
  match Db.getChats cond offset limit d with
  | inr result => Success result
  | inl message => Failure message
  end.

(** ipcMain.handle('GET_MESSAGES', ...) *)
Definition GET_MESSAGES (cond : option string) (chatId : string) (offset limit : Z)
    (d : Db.Database) : Reply Db.MessagesPage :=
  match Db.getMessages cond chatId offset limit d with
  | inr result => Success result
  | inl message => Failure message
  end.

(** ipcMain.handle('MARK_CHAT_AS_READ', ...): the reply and the store the
    call leaves behind. *)
Definition MARK_CHAT_AS_READ (cond : option string) (chatId : string) (d : Db.Database)
  : Reply unit * Db.Database :=
  match Db.markChatAsRead cond chatId d with
  | (Db.Returned, d') => (Success tt, d')
  | (Db.Threw message, d') => (Failure message, d')
  end.

End Main.

(** ** The renderer: thunks of the slices and handlers of the components

    A thunk dispatches its [pending] action when it is called and its
    [fulfilled] or [rejected] action when the IPC reply arrives.  The
    reply is an input: [fetchChats] below runs both reducers in sequence,
    which is what the store goes through when no other action is
    dispatched in between. *)

Module Renderer.

Import Main.

(** A row of the store as the renderer receives it. *)
Definition toChat (row : Db.ChatRow) : ChatsSlice.Chat :=
  ChatsSlice.mkChat (Db.id row) (Db.title row) (Db.lastMessageAt row)
    (Db.unreadCount row).

Definition toMessage (row : Db.MessageRow) : MessagesSlice.Message :=
  MessagesSlice.mkMessage (Db.mid row) (Db.chatId row) (Db.ts row)
    (Db.sender row) (Db.body row).

(** [action.error.message || fallback] *)
Definition messageOr (fallback : string) (message : string) : string :=
  if String.eqb message EmptyString then fallback else message.

(** chatsSlice: [fetchChats.rejected] *)
Definition fetchChats_rejected (message : string) (state : ChatsSlice.ChatsState)
  : ChatsSlice.ChatsState :=
  ChatsSlice.mkChatsState (ChatsSlice.items state) (ChatsSlice.total state)
    (ChatsSlice.hasMore state) (ChatsSlice.currentOffset state) false
    (Some (messageOr "Failed to fetch chats" message)).

(** chatsSlice: the [fetchChats(offset)] thunk, which asks for 50 rows.
    [invoke offset limit] is the reply to the GET_CHATS request. *)
Definition fetchChats (invoke : Z -> Z -> Reply Db.ChatsPage) (offset : Z)
    (state : ChatsSlice.ChatsState) : ChatsSlice.ChatsState :=
  let pending := ChatsSlice.fetchChats_pending state in
  match invoke offset 50 with
  | Success result =>
      ChatsSlice.fetchChats_fulfilled (toChat <$> Db.page_chats result)
        (Db.page_total result) (Db.page_hasMore result) pending
  | Failure message => fetchChats_rejected message pending
  end.

(** What the preload script puts on [window]:
    [contextBridge.exposeInMainWorld('api', ...)]. *)
Definition exposedInMainWorld : list string := ["api"].

(** [window.electron.ipcRenderer.invoke(channel, args)], as the thunks
    write it.  [window.electron] is read first; a key the preload script
    does not expose is [undefined], and reading [ipcRenderer] of it throws
    a TypeError before any request is sent.  The thunk is then rejected
    with the message of that error, as it is with the message of a
    failure reply.  [reply] is what the handler of the main process
    answers to the request. *)
Definition ipcRenderer_invoke {A} (reply : Reply A) : Reply A :=
  if bool_decide ("electron" ∈ exposedInMainWorld)
  then reply
  else Failure "Cannot read properties of undefined (reading 'ipcRenderer')".

(** ChatList: the effect run on mount. *)
Definition loadChats (invoke : Z -> Z -> Reply Db.ChatsPage)
    (state : ChatsSlice.ChatsState) : ChatsSlice.ChatsState :=
  fetchChats invoke 0 state.

(** ChatList: the "Load more chats" button, rendered while [hasMore]. *)
Definition loadMoreChats (invoke : Z -> Z -> Reply Db.ChatsPage)
    (state : ChatsSlice.ChatsState) : ChatsSlice.ChatsState :=
  if ChatsSlice.hasMore state
  then fetchChats invoke (Z.of_nat (length (ChatsSlice.items state))) state
  else state.

(** messagesSlice: the reducers of [fetchMessages]. *)
Definition fetchMessages_pending (state : MessagesSlice.MessagesState)
  : MessagesSlice.MessagesState :=
  MessagesSlice.mkMessagesState (MessagesSlice.items state)
    (MessagesSlice.selectedChatId state) (MessagesSlice.total state)
    (MessagesSlice.hasMore state) (MessagesSlice.currentOffset state) true None.

Definition fetchMessages_fulfilled (result : Db.MessagesPage)
    (state : MessagesSlice.MessagesState) : MessagesSlice.MessagesState :=
  MessagesSlice.mkMessagesState (toMessage <$> Db.page_messages result)
    (MessagesSlice.selectedChatId state) (Db.page_messages_total result)
    (Db.page_messages_hasMore result) (MessagesSlice.currentOffset state) false
    (MessagesSlice.error state).

Definition fetchMessages_rejected (message : string)
    (state : MessagesSlice.MessagesState) : MessagesSlice.MessagesState :=
  MessagesSlice.mkMessagesState (MessagesSlice.items state)
    (MessagesSlice.selectedChatId state) (MessagesSlice.total state)
    (MessagesSlice.hasMore state) (MessagesSlice.currentOffset state) false
    (Some (messageOr "Failed to fetch messages" message)).

(** The reply to a [fetchMessages] request arrives. *)
Definition fetchMessages_settled (reply : Reply Db.MessagesPage)
    (state : MessagesSlice.MessagesState) : MessagesSlice.MessagesState :=
  match reply with
  | Success result => fetchMessages_fulfilled result state
  | Failure message => fetchMessages_rejected message state
  end.

(** ChatList: [handleSelectChat(chatId)], up to the point where the
    request for the messages is in flight. *)
Definition handleSelectChat (chatId : string) (s : RootState) : RootState :=
  on_messages fetchMessages_pending
    (on_messages (MessagesSlice.setSelectedChat chatId)
       (on_messages MessagesSlice.clearMessages
          (on_chats (ChatsSlice.markChatRead chatId) s))).

End Renderer.

(** ** Streams of frames and the message view *)

Module Stream.

Import WebSocketManager.

(** The message [handleNewMessage] hands to [addMessage]. *)
Definition asMessage (d : MessageData) : MessagesSlice.Message :=
  MessagesSlice.mkMessage (messageId d) (chatId d) (ts d) (sender d) (body d).

(** The messages of a stream that belong to the selected chat, in order
    of arrival. *)
Definition shownOf (selected : option string) (frames : list (Z * WSMessage))
  : list MessagesSlice.Message :=
  match selected with
  | None => []
  | Some x =>
      (fun f => asMessage (data f.2))
        <$> filter (fun f => Scenario.targets x f.2 = true) frames
  end.

Definition isPong (message : WSMessage) : bool := String.eqb (type message) "PONG".

Definition pong : WSMessage :=
  mkWSMessage "PONG"
    (mkMessageData EmptyString EmptyString 0 EmptyString EmptyString).

End Stream.

(** ** electron/websocket-server.js: the sync simulator

    The module keeps two variables, [wss] and [messageIntervalId].  The
    state below adds what the [ws] library and the timers own: the sockets
    accepted so far, each with the [isAlive] flag and the heartbeat
    interval of its connection handler and with what was sent on it, the
    [clients] set of the server, and the armed broadcast intervals.  The
    store is the one of the [Db] module. *)

Module Server.

Import WebSocketManager.

Record Socket := mkSocket {
  state : ReadyState;
  isAlive : bool;
  heartbeatInterval : bool;   (* the interval of the connection handler is armed *)
  pings : nat;                (* [ws.ping()] calls that went out *)
  frames : list WSMessage;    (* frames handed to [client.send] *)
}.

Record Simulator := mkSimulator {
  wss : option (gset positive);       (* the server, with its [clients] *)
  accepted : gmap positive Socket;
  messageIntervalId : option positive;
  broadcasting : gset positive;       (* armed broadcast intervals *)
  fresh : positive;
  db : Db.Database;
}.

Definition initial (d : Db.Database) : Simulator :=
  mkSimulator None ∅ None ∅ 1%positive d.

Definition withSockets (f : gmap positive Socket -> gmap positive Socket)
    (sim : Simulator) : Simulator :=
  mkSimulator (wss sim) (f (accepted sim)) (messageIntervalId sim)
    (broadcasting sim) (fresh sim) (db sim).

Definition withDb (d : Db.Database) (sim : Simulator) : Simulator :=
  mkSimulator (wss sim) (accepted sim) (messageIntervalId sim)
    (broadcasting sim) (fresh sim) d.

(** [ws.terminate()] and [client.close()]: a socket that is not closed
    yet starts closing; its close event comes later. *)
Definition closing (sock : Socket) : Socket :=
  match state sock with
  | CLOSED => sock
  | _ => mkSocket CLOSING (isAlive sock) (heartbeatInterval sock) (pings sock)
           (frames sock)
  end.

(** [ws.ping()]: goes out on an open socket. *)
Definition ping (sock : Socket) : Socket :=
  match state sock with
  | OPEN => mkSocket OPEN (isAlive sock) (heartbeatInterval sock) (S (pings sock))
              (frames sock)
  | _ => sock
  end.

(** The heartbeat interval of one connection: the closure of the
    connection handler. *)
Definition heartbeatTick (sock : Socket) : Socket :=
  if isAlive sock
  then ping (mkSocket (state sock) false (heartbeatInterval sock) (pings sock)
               (frames sock))
  else closing (mkSocket (state sock) (isAlive sock) false (pings sock) (frames sock)).

(** ws.on('pong') *)
Definition onPong (sock : Socket) : Socket :=
  mkSocket (state sock) true (heartbeatInterval sock) (pings sock) (frames sock).

(** ws.on('close'): the socket is closed, the handler clears the interval. *)
Definition onClose (sock : Socket) : Socket :=
  mkSocket CLOSED (isAlive sock) false (pings sock) (frames sock).

(** [client.send(message, callback)] *)
Definition sendFrame (event : WSMessage) (sock : Socket) : Socket :=
  mkSocket (state sock) (isAlive sock) (heartbeatInterval sock) (pings sock)
    (frames sock ++ [event]).

(** [broadcastToClients(event)] *)
Definition broadcastToClients (event : WSMessage) (sim : Simulator) : Simulator :=
  match wss sim with
  | None => sim
  | Some clients =>
      withSockets
        (map_imap (fun c sock =>
           Some (if bool_decide (c ∈ clients)
                 then match state sock with
                      | OPEN => sendFrame event sock
                      | _ => sock
                      end
                 else sock)))
        sim
  end.

(** The module object the simulator holds as [db]: the exports of
    [require('./db')], the [module.exports] of db.js. *)
Definition dbExports : list string :=
  ["initializeDatabase"; "getChats"; "getMessages"; "searchMessages";
   "markChatAsRead"; "insertMessage"; "closeDatabase"].

(** [db.prepare('SELECT id FROM chats').all()] in the broadcast callback.
    [db] is the module object, not the database handle, which db.js keeps
    to itself: calling a property the object does not have throws a
    TypeError.  (Through the handle the query lists the chat ids.) *)
Definition prepareAll (d : Db.Database) : string + list string :=
  if bool_decide ("prepare" ∈ dbExports)
  then inr (Db.id <$> Db.chats d)
  else inl "db.prepare is not a function".

(** What one run of the broadcast callback draws from its environment:
    the random index into the chat ids, the fresh message id, the clock,
    the sender and body drawn from the pools, and the engine conditions of
    the two statements of [insertMessage]. *)
Record Draw := mkDraw {
  pick : nat;
  messageId : string;
  now : Z;
  sender : string;
  body : string;
  cond1 : option string;
  cond2 : option string;
}.

Definition eventOf (chatId : string) (draw : Draw) : WSMessage :=
  mkWSMessage "NEW_MESSAGE"
    (mkMessageData chatId (messageId draw) (now draw) (sender draw) (body draw)).

(** The callback of [startMessageBroadcast]; every error is caught and
    logged. *)
Definition broadcastTick (draw : Draw) (sim : Simulator) : Simulator :=
  match prepareAll (db sim) with
  | inl _ => sim
  | inr allChats =>
      match allChats with
      | [] => sim
      | _ =>
          match allChats !! pick draw with
          | None => sim
          | Some chatId =>
              match Db.insertMessage (cond1 draw) (cond2 draw) chatId
                      (messageId draw) (now draw) (sender draw) (body draw) true
                      (db sim) with
              | (Db.Threw _, d') => withDb d' sim
              | (Db.Returned, d') =>
                  broadcastToClients (eventOf chatId draw) (withDb d' sim)
              end
          end
      end
  end.

(** [startMessageBroadcast()] *)
Definition startMessageBroadcast (sim : Simulator) : Simulator :=
  mkSimulator (wss sim) (accepted sim) (Some (fresh sim))
    ({[fresh sim]} ∪ broadcasting sim) (Pos.succ (fresh sim)) (db sim).

(** [startWebSocketServer()] *)
Definition startWebSocketServer (sim : Simulator) : Simulator :=
  startMessageBroadcast
    (mkSimulator (Some ∅) (accepted sim) (messageIntervalId sim)
       (broadcasting sim) (fresh sim) (db sim)).

(** [stopWebSocketServer()] *)
Definition stopWebSocketServer (sim : Simulator) : Simulator :=
  let timers :=
    match messageIntervalId sim with
    | Some t => broadcasting sim ∖ {[t]}
    | None => broadcasting sim
    end in
  match wss sim with
  | Some clients =>
      mkSimulator None
        (map_imap (fun c sock =>
           Some (if bool_decide (c ∈ clients) then closing sock else sock))
           (accepted sim))
        None timers (fresh sim) (db sim)
  | None =>
      mkSimulator None (accepted sim) None timers (fresh sim) (db sim)
  end.

(** The library drops a closed socket from [wss.clients]. *)
Definition difference_clients (c : positive) (server : option (gset positive))
  : option (gset positive) :=
  match server with
  | Some clients => Some (clients ∖ {[c]})
  | None => None
  end.

(** The events of the main process that touch the simulator. *)
Inductive Event :=
| Start
| Stop
| Connection                      (* a client connects *)
| HeartbeatFires (c : positive)
| Pong (c : positive)
| Close (c : positive)
| BroadcastFires (t : positive) (draw : Draw)
| MarkRead (cond : option string) (chatId : string).

Definition step (e : Event) (sim : Simulator) : option Simulator :=
  match e with
  | Start => Some (startWebSocketServer sim)
  | Stop => Some (stopWebSocketServer sim)
  | Connection =>
      match wss sim with
      | Some clients =>
          Some (mkSimulator (Some ({[fresh sim]} ∪ clients))
                  (<[fresh sim := mkSocket OPEN true true 0 []]> (accepted sim))
                  (messageIntervalId sim) (broadcasting sim)
                  (Pos.succ (fresh sim)) (db sim))
      | None => None
      end
  | HeartbeatFires c =>
      match accepted sim !! c with
      | Some sock =>
          if heartbeatInterval sock
          then Some (withSockets (insert c (heartbeatTick sock)) sim)
          else None
      | None => None
      end
  | Pong c =>
      match accepted sim !! c with
      | Some sock =>
          match state sock with
          | CLOSED => None
          | _ => Some (withSockets (insert c (onPong sock)) sim)
          end
      | None => None
      end
  | Close c =>
      match accepted sim !! c with
      | Some sock =>
          match state sock with
          | CLOSED => None
          | _ =>
              Some (mkSimulator (difference_clients c (wss sim))
                      (<[c := onClose sock]> (accepted sim))
                      (messageIntervalId sim) (broadcasting sim)
                      (fresh sim) (db sim))
          end
      | None => None
      end
  | BroadcastFires t draw =>
      if bool_decide (t ∈ broadcasting sim)
      then Some (broadcastTick draw sim)
      else None
  | MarkRead cond chatId =>
      Some (withDb (Db.markChatAsRead cond chatId (db sim)).2 sim)
  end.

Fixpoint run (events : list Event) (sim : Simulator) : option Simulator :=
  match events with
  | [] => Some sim
  | e :: rest =>
      match step e sim with
      | Some sim' => run rest sim'
      | None => None
      end
  end.

End Server.

(** ** Scenarios: transports that fail, retries that fail *)

Module Retries.

Import WebSocketManager.

(** How a transport is lost: the clock value at which the close event is
    delivered, and whether the platform raises an error event first (it
    does when a connection attempt fails; a session that drops may close
    without one). *)
Record Failure := mkFailure {
  withError : bool;
  closedAt : Z;
}.

Definition failureOf (f : Failure) (s : positive) : list (Z * Event) :=
  (if withError f then [(closedAt f, SocketError s)] else [])
  ++ [(closedAt f, SocketClose s)].

(** Automatic retries that all fail.  Each entry is the clock value at
    which the pending reconnect timer fires and the way the transport it
    opens is lost; [s] is the socket the first retry constructs and [t]
    the handle of the timer that starts it. *)
Fixpoint failedRetries (retries : list (Z * Failure)) (s t : positive)
  : list (Z * Event) :=
  match retries with
  | [] => []
  | (firedAt, f) :: rest =>
      (firedAt, TimerFires t None)
      :: failureOf f s ++ failedRetries rest (Pos.succ s) (Pos.succ t)
  end.

(** The manager has one transport in flight: its current socket [s] is
    connecting or open, every other socket it made is closed, and the only
    timers armed are those of the heartbeat of [s]. *)
Definition soleTransport (s : positive) (w : World) : Prop :=
  ws (this w) = Some s
  ∧ (sockets (host w) !! s = Some CONNECTING ∨ sockets (host w) !! s = Some OPEN)
  ∧ map_Forall (fun s' r => s' = s ∨ r = CLOSED) (sockets (host w))
  ∧ map_Forall
      (fun t (_ : Timer) =>
         heartbeatInterval (this w) = Some t ∨ heartbeatTimeout (this w) = Some t)
      (timers (host w)).

#[global] Instance soleTransport_dec s w : Decision (soleTransport s w).
Proof. unfold soleTransport. apply _. Defined.

(** Five retries that fail, each started when the delay of its timer has
    passed: 1 s, 2 s, 4 s, 8 s and 16 s after the failure before it. *)
Definition fiveRetries : list (Z * Failure) :=
  [(1010, mkFailure true 1020); (3020, mkFailure true 3030);
   (7030, mkFailure true 7040); (15040, mkFailure true 15050);
   (31050, mkFailure true 31060)].

End Retries.

(** ** Scenarios: sequential calls of [getChats] *)

Module Windows.

Import Db.

(** The rows of the page [getChats(offset, limit)] returns. *)
Definition pageOf (offset limit : Z) (d : Database) : list ChatRow :=
  match getChats None offset limit d with
  | inr p => page_chats p
  | inl _ => []
  end.

(** Sequential calls with adjacent windows over the same table: the first
    window starts at [offset], each next one where the one before it
    ended. *)
Fixpoint adjacentPages (offset : Z) (limits : list Z) (d : Database)
  : list (list ChatRow) :=
  match limits with
  | [] => []
  | limit :: rest => pageOf offset limit d :: adjacentPages (offset + limit) rest d
  end.

End Windows.

(** * Properties *)

(** ** The chat list under [find]-and-mutate *)

Section MutateFound.

Import ChatsSlice.

Variable x : string.
Variable f : Chat -> Chat.
Hypothesis f_id : ∀ c, id (f c) = id c.

Lemma mutate_found_ids l :
  id <$> mutate_found (fun c => String.eqb (id c) x) f l = id <$> l.
Proof.
  induction l as [|c r IH]; [done|]. cbn [mutate_found].
  destruct (String.eqb (id c) x); rewrite !fmap_cons;
    [by rewrite f_id | by rewrite IH].
Qed.

Lemma mutate_found_length l :
  length (mutate_found (fun c => String.eqb (id c) x) f l) = length l.
Proof.
  induction l as [|c r IH]; simpl; [done|].
  destruct (String.eqb (id c) x); simpl; congruence.
Qed.

Lemma find_mutate_found l :
  List.find (fun c => String.eqb (id c) x)
    (mutate_found (fun c => String.eqb (id c) x) f l)
  = f <$> List.find (fun c => String.eqb (id c) x) l.
Proof.
  induction l as [|c r IH]; simpl; [done|].
  destruct (String.eqb (id c) x) eqn:Hc; simpl.
  - by rewrite f_id, Hc.
  - by rewrite Hc.
Qed.

Lemma find_mutate_found_other y l :
  y ≠ x →
  List.find (fun c => String.eqb (id c) y) (mutate_found (fun c => String.eqb (id c) x) f l)
  = List.find (fun c => String.eqb (id c) y) l.
Proof.
  intros Hy. induction l as [|c r IH]; simpl; [done|].
  destruct (String.eqb (id c) x) eqn:Hc; simpl.
  - apply String.eqb_eq in Hc. rewrite f_id.
    destruct (String.eqb (id c) y) eqn:Hcy; [|done].
    apply String.eqb_eq in Hcy. congruence.
  - by rewrite IH.
Qed.

Lemma mutate_found_frame l :
  Forall2 (fun c c' => c' = c ∨ (id c = x ∧ c' = f c)) l
    (mutate_found (fun c => String.eqb (id c) x) f l).
Proof.
  induction l as [|c r IH]; simpl; [constructor|].
  destruct (String.eqb (id c) x) eqn:Hc.
  - constructor.
    + right. split; [by apply String.eqb_eq|done].
    + apply Forall2_same_length_lookup. split; [done|]. intros; left; congruence.
  - constructor; [by left|done].
Qed.

Lemma mutate_found_absent l :
  List.find (fun c => String.eqb (id c) x) l = None →
  mutate_found (fun c => String.eqb (id c) x) f l = l.
Proof.
  induction l as [|c r IH]; simpl; [done|].
  destruct (String.eqb (id c) x); [done|]. intros H. by rewrite IH.
Qed.

End MutateFound.

Section EventApplication.

Import WebSocketManager Scenario.

Lemma handleNewMessage_store now d w :
  store (exec (handleNewMessage now d) w)
  = on_messages (MessagesSlice.addMessage
      (MessagesSlice.mkMessage (messageId d) (chatId d) (ts d) (sender d) (body d)))
      (on_chats (ChatsSlice.incrementChatUnread now (chatId d)) (store w)).
Proof. reflexivity. Qed.

Lemma handleNewMessage_chats now d w :
  chats (store (exec (handleNewMessage now d) w))
  = ChatsSlice.incrementChatUnread now (chatId d) (chats (store w)).
Proof. reflexivity. Qed.

Lemma incrementChatUnread_unreadCountOf now x s :
  ChatsSlice.unreadCountOf x (ChatsSlice.incrementChatUnread now x s)
  = (fun u => u + 1) <$> ChatsSlice.unreadCountOf x s.
Proof.
  unfold ChatsSlice.unreadCountOf, ChatsSlice.incrementChatUnread. simpl.
  rewrite find_mutate_found by done.
  by destruct (List.find _ (ChatsSlice.items s)).
Qed.

Lemma incrementChatUnread_lastMessageAtOf now x s :
  ChatsSlice.lastMessageAtOf x (ChatsSlice.incrementChatUnread now x s)
  = (fun _ => now) <$> ChatsSlice.lastMessageAtOf x s.
Proof.
  unfold ChatsSlice.lastMessageAtOf, ChatsSlice.incrementChatUnread. simpl.
  rewrite find_mutate_found by done.
  by destruct (List.find _ (ChatsSlice.items s)).
Qed.

Lemma onmessage_new_message now m w :
  type m = "NEW_MESSAGE" →
  exec (onmessage now m) w = exec (handleNewMessage now (data m)) w.
Proof. intros H. unfold onmessage, handleMessage. by rewrite H. Qed.

Lemma incrementChatUnread_unreadCountOf_other now x y s :
  y ≠ x →
  ChatsSlice.unreadCountOf y (ChatsSlice.incrementChatUnread now x s)
  = ChatsSlice.unreadCountOf y s.
Proof.
  intros Hy. unfold ChatsSlice.unreadCountOf, ChatsSlice.incrementChatUnread. simpl.
  by rewrite find_mutate_found_other.
Qed.

Lemma handlePong_store now w :
  chats (store (exec (handlePong now) w)) = chats (store w).
Proof.
  destruct w as [[sock a rt hi [t|]] st h]; reflexivity.
Qed.

(** One frame of any kind: the counter of [x] goes up by one when the frame
    is a NEW_MESSAGE for [x], and is left alone otherwise. *)
Lemma onmessage_unreadCountOf now m x w :
  ChatsSlice.unreadCountOf x (chats (store (exec (onmessage now m) w)))
  = (fun u => if targets x m then u + 1 else u)
    <$> ChatsSlice.unreadCountOf x (chats (store w)).
Proof.
  unfold onmessage, handleMessage, targets.
  destruct (String.eqb (type m) "NEW_MESSAGE") eqn:Hty; cbn [andb].
  - rewrite handleNewMessage_chats.
    destruct (String.eqb (chatId (data m)) x) eqn:Hx.
    + apply String.eqb_eq in Hx. subst x. apply incrementChatUnread_unreadCountOf.
    + apply String.eqb_neq in Hx.
      rewrite incrementChatUnread_unreadCountOf_other by done.
      by destruct (ChatsSlice.unreadCountOf x (chats (store w))).
  - destruct (String.eqb (type m) "PONG").
    + rewrite handlePong_store.
      by destruct (ChatsSlice.unreadCountOf x (chats (store w))).
    + change (exec (mret ()) w) with w.
      by destruct (ChatsSlice.unreadCountOf x (chats (store w))).
Qed.

(** A stream of frames of any kind raises the counter of [x] by the number
    of NEW_MESSAGE frames for [x] in it. *)
Lemma deliver_unreadCountOf frames x w :
  ChatsSlice.unreadCountOf x (chats (store (deliver frames w)))
  = (fun u => u + Z.of_nat (length (filter (fun f => targets x f.2 = true) frames)))
    <$> ChatsSlice.unreadCountOf x (chats (store w)).
Proof.
  revert w. induction frames as [|[now m] frames IH]; intros w.
  - simpl. destruct (ChatsSlice.unreadCountOf x (chats (store w))); simpl; [|done].
    f_equal. lia.
  - change (deliver ((now, m) :: frames) w)
      with (deliver frames (exec (onmessage now m) w)).
    rewrite IH, onmessage_unreadCountOf.
    destruct (ChatsSlice.unreadCountOf x (chats (store w))) as [u|]; simpl; [|done].
    f_equal. destruct (targets x m) eqn:E.
    + rewrite filter_cons_True by done. simpl length. lia.
    + rewrite filter_cons_False by (simpl; congruence). lia.
Qed.

Lemma incrementChatUnread_absent now x s :
  ChatsSlice.unreadCountOf x s = None →
  ChatsSlice.incrementChatUnread now x s = s.
Proof.
  unfold ChatsSlice.unreadCountOf, ChatsSlice.incrementChatUnread. intros H.
  rewrite mutate_found_absent.
  - by destruct s.
  - by destruct (List.find _ (ChatsSlice.items s)).
Qed.

(** C3, as stated, fails for a chat that is not in the loaded chat list
    (the list holds one page of the table).  The list holds chats "a" and
    "b"; two NEW_MESSAGE events for chat "c" are applied.  Nothing is
    counted: the slice is what it was, with no counter that went up by
    two. *)
Lemma new_message_for_unlisted_chat_not_counted :
  let w := withChats twoChats (Some "a") in
  let w' := deliver [(100, newMessage "c" "m1" 99); (101, newMessage "c" "m2" 100)] w in
  chats (store w') = chats (store w)
  ∧ ChatsSlice.unreadCountOf "c" (chats (store w')) = None
  ∧ ChatsSlice.unreadCount <$> ChatsSlice.items (chats (store w')) = [0; 2]
  ∧ ¬ ∃ u, ChatsSlice.unreadCountOf "c" (chats (store w)) = Some u
           ∧ ChatsSlice.unreadCountOf "c" (chats (store w')) = Some (u + 2).
Proof.
  cbv zeta. split; [reflexivity|]. split; [reflexivity|]. split; [reflexivity|].
  intros (u & Hu & _). discriminate.
Qed.

(** C3, amended.  For every chat [x] that has an entry in the loaded chat
    list, delivering N NEW_MESSAGE frames for [x] raises the unread
    counter of [x] by exactly N, whatever chat is selected in the message
    view.  For a chat with no entry in the list the frames are not
    counted: the chat list stays as it was. *)
Theorem new_messages_increment_unread_by_count
    (x : string) (frames : list (Z * WSMessage)) (w : World) :
  Forall (fun f => type f.2 = "NEW_MESSAGE" ∧ chatId (data f.2) = x) frames →
  (∀ u, ChatsSlice.unreadCountOf x (chats (store w)) = Some u →
        ChatsSlice.unreadCountOf x (chats (store (deliver frames w)))
        = Some (u + Z.of_nat (length frames)))
  ∧ (ChatsSlice.unreadCountOf x (chats (store w)) = None →
     chats (store (deliver frames w)) = chats (store w)).
Proof.
  intros Hall. revert w.
  induction Hall as [|[now m] frames [Hty Hx] _ IH]; intros w.
  - split; [|done]. intros u Hu. simpl. rewrite Hu. f_equal. lia.
  - change (deliver ((now, m) :: frames) w)
      with (deliver frames (exec (onmessage now m) w)).
    destruct (IH (exec (onmessage now m) w)) as [IHsome IHnone].
    simpl in Hty, Hx.
    assert (Hstep : chats (store (exec (onmessage now m) w))
                    = ChatsSlice.incrementChatUnread now x (chats (store w))).
    { rewrite onmessage_new_message by done.
      by rewrite handleNewMessage_chats, Hx. }
    split.
    + intros u Hu. rewrite (IHsome (u + 1)).
      * f_equal. cbn [length]. lia.
      * by rewrite Hstep, incrementChatUnread_unreadCountOf, Hu.
    + intros Hu.
      rewrite IHnone; rewrite Hstep, incrementChatUnread_absent; done.
Qed.

Lemma new_messages_increment_unread_by_count_witness :
  ChatsSlice.unreadCountOf "b"
    (chats (store (deliver [(100, newMessage "b" "m1" 99);
                            (101, newMessage "b" "m2" 100);
                            (250, newMessage "b" "m3" 249)]
                     (withChats twoChats (Some "a")))))
  = Some (2 + 3)
  ∧ ChatsSlice.unreadCountOf "b"
      (chats (store (deliver [(100, newMessage "b" "m1" 99);
                              (101, newMessage "b" "m2" 100)]
                       (withChats twoChats (Some "b")))))
    = Some (2 + 2).
Proof.
  split.
  - apply (new_messages_increment_unread_by_count "b"
             [(100, newMessage "b" "m1" 99); (101, newMessage "b" "m2" 100);
              (250, newMessage "b" "m3" 249)]
             (withChats twoChats (Some "a"))).
    + repeat constructor.
    + reflexivity.
  - apply (new_messages_increment_unread_by_count "b"
             [(100, newMessage "b" "m1" 99); (101, newMessage "b" "m2" 100)]
             (withChats twoChats (Some "b"))).
    + repeat constructor.
    + reflexivity.
Defined.

End EventApplication.

Section ChatOrdering.

Import WebSocketManager Scenario.

(** C8, as stated, fails.  Chats "a" and "b" are listed in that order.  A
    message for "a" and then a message for "b" are applied within the same
    millisecond.  After the second one "b" has its counter raised, but "a"
    is still the first entry of the list the view renders, and "b" is not
    ahead of it by [lastMessageAt] either. *)
Lemma new_message_target_not_first :
  let w1 := deliver [(100, newMessage "a" "m1" 100)] (withChats twoChats None) in
  let w2 := exec (handleNewMessage 100 (data (newMessage "b" "m2" 100))) w1 in
  ChatsSlice.unreadCountOf "b" (chats (store w2)) = Some 3
  ∧ ChatsSlice.id <$> ChatsSlice.items (chats (store w2)) = ["a"; "b"]
  ∧ ChatsSlice.lastMessageAt <$> ChatsSlice.items (chats (store w2)) = [100; 100]
  ∧ ChatsSlice.id <$> head (ChatsSlice.items (chats (store w2))) ≠ Some "b".
Proof. repeat split; try reflexivity. discriminate. Qed.

(** C8, amended.  Applying a NEW_MESSAGE event leaves every chat at its
    position in the list; the target chat, when it is in the list, has its
    unread counter raised by one and its [lastMessageAt] set to the current
    time, and every other entry is unchanged. *)
Theorem new_message_updates_chat_in_place (now : Z) (d : MessageData) (w : World) :
  let s := chats (store w) in
  let s' := chats (store (exec (handleNewMessage now d) w)) in
  ChatsSlice.id <$> ChatsSlice.items s' = ChatsSlice.id <$> ChatsSlice.items s
  ∧ ChatsSlice.unreadCountOf (chatId d) s'
    = (fun u => u + 1) <$> ChatsSlice.unreadCountOf (chatId d) s
  ∧ ChatsSlice.lastMessageAtOf (chatId d) s'
    = (fun _ => now) <$> ChatsSlice.lastMessageAtOf (chatId d) s
  ∧ Forall2
      (fun c c' =>
         c' = c ∨
         (ChatsSlice.id c = chatId d ∧
          c' = ChatsSlice.mkChat (ChatsSlice.id c) (ChatsSlice.title c) now
                 (ChatsSlice.unreadCount c + 1)))
      (ChatsSlice.items s) (ChatsSlice.items s').
Proof.
  cbv zeta. rewrite handleNewMessage_chats. repeat split.
  - apply mutate_found_ids. done.
  - apply incrementChatUnread_unreadCountOf.
  - apply incrementChatUnread_lastMessageAtOf.
  - apply (mutate_found_frame (chatId d)
             (fun chat => ChatsSlice.mkChat (ChatsSlice.id chat)
                            (ChatsSlice.title chat) now
                            (ChatsSlice.unreadCount chat + 1))).
Qed.

End ChatOrdering.

Section MarkRead.

Lemma updateWhereId_frame x f l :
  Forall2 (fun c c' => c' = c ∨ (Db.id c = x ∧ c' = f c)) l
    (map (fun c => if String.eqb (Db.id c) x then f c else c) l).
Proof.
  induction l as [|c r IH]; simpl; constructor; [|done].
  destruct (String.eqb (Db.id c) x) eqn:Hc; [right|by left].
  split; [by apply String.eqb_eq|done].
Qed.

Lemma updateWhereId_target x f l :
  Forall (fun c => Db.id c = x → ∃ c0, c0 ∈ l ∧ Db.id c0 = x ∧ c = f c0)
    (map (fun c => if String.eqb (Db.id c) x then f c else c) l).
Proof.
  apply Forall_forall. intros c Hin Hid.
  apply list_elem_of_In, in_map_iff in Hin. destruct Hin as [c0 [Hc0 Hin]].
  apply list_elem_of_In in Hin.
  destruct (String.eqb (Db.id c0) x) eqn:E.
  - apply String.eqb_eq in E. eauto.
  - subst c. apply String.eqb_neq in E. done.
Qed.

(** C10.  Marking chat [x] as read, in the chat list of the client
    ([markChatRead]) and in the store ([markChatAsRead]), sets the unread
    counter of [x] to 0 and changes nothing else: every entry keeps its
    position, id, title and [lastMessageAt], every other chat is identical,
    the remaining fields of the slice, the other slices and the message
    table are untouched.  The store command returns unless the engine
    raises a condition of its own; it then throws that condition and
    leaves the store as it was. *)
Theorem mark_read_resets_only_unreadCount
    (x : string) (root : RootState) (cond : option string) (d : Db.Database) :
  let s := chats root in
  let root' := on_chats (ChatsSlice.markChatRead x) root in
  let s' := chats root' in
  (Forall2
     (fun c c' =>
        c' = c ∨
        (ChatsSlice.id c = x ∧
         c' = ChatsSlice.mkChat (ChatsSlice.id c) (ChatsSlice.title c)
                (ChatsSlice.lastMessageAt c) 0))
     (ChatsSlice.items s) (ChatsSlice.items s')
   ∧ ChatsSlice.unreadCountOf x s' = (fun _ => 0) <$> ChatsSlice.unreadCountOf x s
   ∧ ChatsSlice.lastMessageAtOf x s' = ChatsSlice.lastMessageAtOf x s
   ∧ ChatsSlice.with_items (ChatsSlice.items s) s' = s
   ∧ messages root' = messages root
   ∧ connection root' = connection root)
  ∧
  (Db.messages (Db.markChatAsRead cond x d).2 = Db.messages d
   ∧ Forall2
       (fun c c' =>
          c' = c ∨
          (Db.id c = x ∧
           c' = Db.mkChatRow (Db.id c) (Db.title c) (Db.lastMessageAt c) 0))
       (Db.chats d) (Db.chats (Db.markChatAsRead cond x d).2)
   ∧ match (Db.markChatAsRead cond x d).1 with
     | Db.Returned =>
         Forall (fun c => Db.id c = x → Db.unreadCount c = 0)
           (Db.chats (Db.markChatAsRead cond x d).2)
     | Db.Threw _ => (Db.markChatAsRead cond x d).2 = d
     end
   ∧ (Db.markChatAsRead cond x d).1
     = match cond with
       | None => Db.Returned
       | Some msg => Db.Threw msg
       end
   ∧ (Db.markChatAsRead None x d).1 = Db.Returned
   ∧ Forall (fun c => Db.id c = x → Db.unreadCount c = 0)
       (Db.chats (Db.markChatAsRead None x d).2)
   ∧ Forall2
       (fun c c' =>
          if String.eqb (Db.id c) x
          then c' = Db.mkChatRow (Db.id c) (Db.title c) (Db.lastMessageAt c) 0
          else c' = c)
       (Db.chats d) (Db.chats (Db.markChatAsRead None x d).2)).
Proof.
  cbv zeta. split.
  - simpl. repeat split.
    + apply (mutate_found_frame x
               (fun chat => ChatsSlice.mkChat (ChatsSlice.id chat)
                              (ChatsSlice.title chat)
                              (ChatsSlice.lastMessageAt chat) 0)).
    + unfold ChatsSlice.unreadCountOf. simpl. rewrite find_mutate_found by done.
      by destruct (List.find _ _).
    + unfold ChatsSlice.lastMessageAtOf. simpl. rewrite find_mutate_found by done.
      by destruct (List.find _ _).
    + by destruct (chats root).
  - assert (Hzero : Forall (fun c => Db.id c = x → Db.unreadCount c = 0)
                      (Db.chats (Db.markChatAsRead None x d).2)).
    { simpl. eapply Forall_impl; [apply updateWhereId_target|].
      simpl. intros c H Hid. destruct (H Hid) as [c0 [_ [_ ->]]]. done. }
    assert (Hexact :
              Forall2
                (fun c c' =>
                   if String.eqb (Db.id c) x
                   then c' = Db.mkChatRow (Db.id c) (Db.title c) (Db.lastMessageAt c) 0
                   else c' = c)
                (Db.chats d) (Db.chats (Db.markChatAsRead None x d).2)).
    { simpl. induction (Db.chats d) as [|c r IH]; simpl; constructor; [|done].
      by destruct (String.eqb (Db.id c) x). }
    destruct cond as [msg|].
    + split; [done|]. split.
      { apply Forall2_same_length_lookup. split; [done|]. intros; left.
        simpl in *. congruence. }
      split; [done|]. split; [done|]. split; [done|].
      split; [exact Hzero|exact Hexact].
    + split; [done|]. split; [apply updateWhereId_frame|].
      split; [exact Hzero|]. split; [done|]. split; [done|].
      split; [exact Hzero|exact Hexact].
Qed.

End MarkRead.

Section Paging.

Import Db.

Lemma insertDesc_perm c l : insertDesc c l ≡ₚ c :: l.
Proof.
  induction l as [|d r IH]; simpl; [done|].
  destruct (lastMessageAt d <=? lastMessageAt c); [done|].
  rewrite IH. apply Permutation_swap.
Qed.

Lemma orderBy_perm l : orderByLastMessageAtDesc l ≡ₚ l.
Proof.
  induction l as [|c r IH]; simpl; [done|].
  rewrite insertDesc_perm. by rewrite IH.
Qed.

Lemma insertDesc_sorted c l :
  Sorted newerFirst l → Sorted newerFirst (insertDesc c l).
Proof.
  induction l as [|d r IH]; simpl; intros Hs.
  - repeat constructor.
  - destruct (lastMessageAt d <=? lastMessageAt c) eqn:E.
    + constructor; [done|]. constructor. unfold newerFirst. lia.
    + apply Sorted_inv in Hs as [Hr Hd].
      constructor; [by apply IH|].
      destruct r as [|e r']; simpl.
      * constructor. unfold newerFirst. lia.
      * destruct (lastMessageAt e <=? lastMessageAt c).
        -- constructor. unfold newerFirst. lia.
        -- constructor. by apply HdRel_inv in Hd.
Qed.

Lemma orderBy_sorted l : Sorted newerFirst (orderByLastMessageAtDesc l).
Proof.
  induction l as [|c r IH]; simpl; [constructor|]. by apply insertDesc_sorted.
Qed.

Lemma limitOffset_nonneg {A} (limit offset : Z) (l : list A) :
  0 ≤ limit → limitOffset limit offset l = take (Z.to_nat limit) (drop (Z.to_nat offset) l).
Proof.
  intros H. unfold limitOffset.
  destruct (limit <? 0) eqn:E; [lia|done].
Qed.

Lemma limitOffset_adjacent {A} (offset l1 l2 : Z) (l : list A) :
  0 ≤ offset → 0 ≤ l1 → 0 ≤ l2 →
  limitOffset l1 offset l ++ limitOffset l2 (offset + l1) l
  = limitOffset (l1 + l2) offset l.
Proof.
  intros Ho H1 H2. rewrite !limitOffset_nonneg by lia.
  rewrite !Z2Nat.inj_add by lia.
  rewrite <- drop_drop. apply take_take_drop.
Qed.

Lemma limitOffset_sublist {A} (limit offset : Z) (l : list A) :
  limitOffset limit offset l `sublist_of` l.
Proof.
  unfold limitOffset. destruct (limit <? 0).
  - apply sublist_drop.
  - etrans; [apply sublist_take|apply sublist_drop].
Qed.

Lemma orderBy_ids_NoDup l :
  NoDup (id <$> l) → NoDup (id <$> orderByLastMessageAtDesc l).
Proof. intros H. by rewrite orderBy_perm. Qed.

Lemma adjacent_windows_disjoint (offset l1 l2 : Z) (l : list ChatRow) :
  NoDup (id <$> l) → 0 ≤ offset → 0 ≤ l1 → 0 ≤ l2 →
  ∀ c1 c2, c1 ∈ limitOffset l1 offset l → c2 ∈ limitOffset l2 (offset + l1) l →
           id c1 ≠ id c2.
Proof.
  intros Hnd Ho H1 H2 c1 c2 Hc1 Hc2 Heq.
  assert (Hsub : NoDup (id <$> (limitOffset l1 offset l ++ limitOffset l2 (offset + l1) l))).
  { rewrite limitOffset_adjacent by done.
    eapply sublist_NoDup; [exact Hnd|apply fmap_sublist, limitOffset_sublist]. }
  rewrite fmap_app in Hsub. apply NoDup_app in Hsub as (_ & Hdisj & _).
  apply (Hdisj (id c1)).
  - by apply list_elem_of_fmap_2.
  - rewrite Heq. by apply list_elem_of_fmap_2.
Qed.

End Paging.

Section PagingClaim.

Import Db.

Lemma app3_ids_disjoint (p1 p2 p3 : list ChatRow) :
  NoDup (id <$> (p1 ++ p2 ++ p3)) →
  (∀ c1 c2, c1 ∈ p1 → c2 ∈ p2 → id c1 ≠ id c2)
  ∧ (∀ c1 c3, c1 ∈ p1 → c3 ∈ p3 → id c1 ≠ id c3)
  ∧ (∀ c2 c3, c2 ∈ p2 → c3 ∈ p3 → id c2 ≠ id c3).
Proof.
  rewrite !fmap_app. intros H.
  apply NoDup_app in H as (_ & H1 & H23).
  apply NoDup_app in H23 as (_ & H2 & _).
  repeat split; intros a b Ha Hb Heq.
  - apply (H1 (id a)); [by apply list_elem_of_fmap_2|].
    apply elem_of_app. left. rewrite Heq. by apply list_elem_of_fmap_2.
  - apply (H1 (id a)); [by apply list_elem_of_fmap_2|].
    apply elem_of_app. right. rewrite Heq. by apply list_elem_of_fmap_2.
  - apply (H2 (id a)); [by apply list_elem_of_fmap_2|].
    rewrite Heq. by apply list_elem_of_fmap_2.
Qed.

Lemma concat_adjacentPages (limits : list Z) (d : Database) :
  ∀ offset, 0 ≤ offset → Forall (fun l => 0 ≤ l) limits →
    concat (Windows.adjacentPages offset limits d)
    = limitOffset (foldr Z.add 0 limits) offset (orderByLastMessageAtDesc (chats d))
    ∧ 0 ≤ foldr Z.add 0 limits.
Proof.
  induction limits as [|l rest IH]; intros offset Ho Hall.
  - split; [|done]. simpl. by rewrite limitOffset_nonneg.
  - apply Forall_cons in Hall as [Hl Hrest].
    destruct (IH (offset + l) ltac:(lia) Hrest) as [Hcat Hsum].
    split; [|simpl; lia].
    cbn [Windows.adjacentPages concat foldr]. rewrite Hcat.
    unfold Windows.pageOf, getChats. cbn [page_chats].
    by apply limitOffset_adjacent.
Qed.

(** C9.  Over an unchanged chat table (ids unique, as the primary key
    makes them), the pages [getChats] returns for two adjacent windows are
    disjoint and together are exactly the page of the joined window.  Any
    sequence of adjacent windows that starts at offset 0 returns, page
    after page, a prefix of the table in its order by [lastMessageAt]
    descending; once the windows reach the end of the table the pages
    together are the whole table, every row on exactly one page.  For a
    table of 120 rows, [getChats(0,50)], [getChats(50,50)] and
    [getChats(100,50)] return 50, 50 and 20 rows, pairwise disjoint, whose
    concatenation is the whole table in that order. *)
Theorem getChats_windows_partition (d : Database) :
  NoDup (id <$> chats d) →
  (∀ offset l1 l2, 0 ≤ offset → 0 ≤ l1 → 0 ≤ l2 →
     ∃ p1 p2 p12,
       getChats None offset l1 d = inr p1
       ∧ getChats None (offset + l1) l2 d = inr p2
       ∧ getChats None offset (l1 + l2) d = inr p12
       ∧ page_chats p1 ++ page_chats p2 = page_chats p12
       ∧ (∀ c1 c2, c1 ∈ page_chats p1 → c2 ∈ page_chats p2 → id c1 ≠ id c2))
  ∧ (length (chats d) = 120%nat →
     ∃ p1 p2 p3,
       getChats None 0 50 d = inr p1
       ∧ getChats None 50 50 d = inr p2
       ∧ getChats None 100 50 d = inr p3
       ∧ length (page_chats p1) = 50%nat
       ∧ length (page_chats p2) = 50%nat
       ∧ length (page_chats p3) = 20%nat
       ∧ page_chats p1 ++ page_chats p2 ++ page_chats p3
         = orderByLastMessageAtDesc (chats d)
       ∧ orderByLastMessageAtDesc (chats d) ≡ₚ chats d
       ∧ Sorted newerFirst (orderByLastMessageAtDesc (chats d))
       ∧ (∀ c1 c2, c1 ∈ page_chats p1 → c2 ∈ page_chats p2 → id c1 ≠ id c2)
       ∧ (∀ c1 c3, c1 ∈ page_chats p1 → c3 ∈ page_chats p3 → id c1 ≠ id c3)
       ∧ (∀ c2 c3, c2 ∈ page_chats p2 → c3 ∈ page_chats p3 → id c2 ≠ id c3)
       ∧ (page_total p1, page_total p2, page_total p3) = (120, 120, 120)
       ∧ (page_hasMore p1, page_hasMore p2, page_hasMore p3) = (true, true, false))
  ∧ (∀ limits, Forall (fun l => 0 ≤ l) limits →
       concat (Windows.adjacentPages 0 limits d)
       = take (Z.to_nat (foldr Z.add 0 limits)) (orderByLastMessageAtDesc (chats d))
       ∧ NoDup (id <$> concat (Windows.adjacentPages 0 limits d))
       ∧ (Z.of_nat (length (chats d)) ≤ foldr Z.add 0 limits →
          concat (Windows.adjacentPages 0 limits d) = orderByLastMessageAtDesc (chats d)
          ∧ concat (Windows.adjacentPages 0 limits d) ≡ₚ chats d
          ∧ Sorted newerFirst (concat (Windows.adjacentPages 0 limits d)))).
Proof.
  intros Hnd. split; [|split].
  3: { intros limits Hall.
       destruct (concat_adjacentPages limits d 0 ltac:(lia) Hall) as [Hcat Hsum].
       rewrite limitOffset_nonneg in Hcat by done.
       change (Z.to_nat 0) with 0%nat in Hcat. rewrite drop_0 in Hcat.
       split; [exact Hcat|]. split.
       - rewrite Hcat. eapply sublist_NoDup; [apply orderBy_ids_NoDup, Hnd|].
         apply fmap_sublist, sublist_take.
       - intros Hcover.
         assert (Hall' : concat (Windows.adjacentPages 0 limits d)
                         = orderByLastMessageAtDesc (chats d)).
         { rewrite Hcat. apply take_ge.
           rewrite (Permutation_length (orderBy_perm (chats d))). lia. }
         rewrite Hall'. split; [done|]. split; [apply orderBy_perm|apply orderBy_sorted]. }
  - intros offset l1 l2 Ho H1 H2. do 3 eexists.
    split; [reflexivity|]. split; [reflexivity|]. split; [reflexivity|].
    simpl. split.
    + by apply limitOffset_adjacent.
    + apply adjacent_windows_disjoint; try done. by apply orderBy_ids_NoDup.
  - intros Hlen.
    set (S := orderByLastMessageAtDesc (chats d)).
    assert (HlenS : length S = 120%nat).
    { unfold S. by rewrite orderBy_perm. }
    assert (Hcat : limitOffset 50 0 S ++ limitOffset 50 50 S ++ limitOffset 50 100 S = S).
    { rewrite app_assoc.
      assert (E1 : limitOffset 50 0 S ++ limitOffset 50 50 S = limitOffset 100 0 S)
        by (apply (limitOffset_adjacent 0 50 50 S); lia).
      assert (E2 : limitOffset 100 0 S ++ limitOffset 50 100 S = limitOffset 150 0 S)
        by (apply (limitOffset_adjacent 0 100 50 S); lia).
      rewrite E1, E2.
      rewrite limitOffset_nonneg by lia. simpl drop.
      apply take_ge. rewrite HlenS. lia. }
    do 3 eexists.
    split; [reflexivity|]. split; [reflexivity|]. split; [reflexivity|].
    simpl. fold S. rewrite Hlen.
    rewrite !limitOffset_nonneg by lia.
    rewrite !length_take, !length_drop, HlenS.
    split; [by vm_compute|]. split; [by vm_compute|]. split; [by vm_compute|].
    rewrite <- !limitOffset_nonneg by lia.
    split; [exact Hcat|].
    split; [apply orderBy_perm|].
    split; [apply orderBy_sorted|].
    assert (Hd3 := app3_ids_disjoint (limitOffset 50 0 S) (limitOffset 50 50 S)
                     (limitOffset 50 100 S)).
    rewrite Hcat in Hd3. specialize (Hd3 (orderBy_ids_NoDup _ Hnd)).
    destruct Hd3 as (Ha & Hb & Hc).
    repeat split; assumption.
Qed.

Lemma getChats_windows_partition_witness :
  (∃ p1 p2 p12,
     getChats None 10 20 (Scenario.seededDb 120) = inr p1
     ∧ getChats None (10 + 20) 30 (Scenario.seededDb 120) = inr p2
     ∧ getChats None 10 (20 + 30) (Scenario.seededDb 120) = inr p12
     ∧ page_chats p1 ++ page_chats p2 = page_chats p12
     ∧ (∀ c1 c2, c1 ∈ page_chats p1 → c2 ∈ page_chats p2 → id c1 ≠ id c2))
  ∧ ∃ p1 p2 p3,
      getChats None 0 50 (Scenario.seededDb 120) = inr p1
      ∧ getChats None 50 50 (Scenario.seededDb 120) = inr p2
      ∧ getChats None 100 50 (Scenario.seededDb 120) = inr p3
      ∧ length (page_chats p1) = 50%nat
      ∧ length (page_chats p2) = 50%nat
      ∧ length (page_chats p3) = 20%nat
      ∧ concat (Windows.adjacentPages 0 [50; 50; 50; 50] (Scenario.seededDb 200))
        ≡ₚ chats (Scenario.seededDb 200).
Proof.
  assert (Hnd : NoDup (id <$> chats (Scenario.seededDb 120))).
  { refine (bool_decide_unpack (NoDup (id <$> chats (Scenario.seededDb 120))) _).
    vm_compute. exact I. }
  assert (Hnd' : NoDup (id <$> chats (Scenario.seededDb 200))).
  { refine (bool_decide_unpack (NoDup (id <$> chats (Scenario.seededDb 200))) _).
    vm_compute. exact I. }
  destruct (getChats_windows_partition (Scenario.seededDb 120) Hnd) as (Hadj & H120 & _).
  destruct (getChats_windows_partition (Scenario.seededDb 200) Hnd') as (_ & _ & Hall).
  split.
  - apply (Hadj 10 20 30); lia.
  - destruct (H120 eq_refl) as (p1 & p2 & p3 & E1 & E2 & E3 & L1 & L2 & L3 & _).
    exists p1, p2, p3.
    split; [exact E1|]. split; [exact E2|]. split; [exact E3|].
    split; [exact L1|]. split; [exact L2|]. split; [exact L3|].
    destruct (Hall [50; 50; 50; 50]) as (_ & _ & Hcover).
    + repeat constructor; lia.
    + apply Hcover. vm_compute. discriminate.
Defined.

End PagingClaim.

(** ** The connection manager *)

(** Symbolic execution of a method body: unfold the monad and the
    primitives, keep the slices and the finite maps folded. *)
Ltac run_method :=
  cbv beta iota zeta delta
    [WebSocketManager.exec mbind mret WebSocketManager.Run_bind
     WebSocketManager.Run_ret WebSocketManager.getThis WebSocketManager.setThis
     WebSocketManager.setHost WebSocketManager.dispatch
     WebSocketManager.assign_ws WebSocketManager.assign_reconnectAttempt
     WebSocketManager.assign_reconnectTimeout
     WebSocketManager.assign_heartbeatInterval
     WebSocketManager.assign_heartbeatTimeout
     WebSocketManager.arm WebSocketManager.setTimeout WebSocketManager.setInterval
     WebSocketManager.clearIfSet WebSocketManager.newWebSocket
     WebSocketManager.setReadyState WebSocketManager.readyState
     WebSocketManager.close WebSocketManager.send
     WebSocketManager.stopHeartbeat WebSocketManager.startHeartbeat
     WebSocketManager.handlePong WebSocketManager.scheduleReconnect
     WebSocketManager.connect WebSocketManager.disconnect
     WebSocketManager.onopen WebSocketManager.onclose WebSocketManager.onerror
     WebSocketManager.timerBody
     WebSocketManager.this WebSocketManager.store WebSocketManager.host
     WebSocketManager.ws WebSocketManager.reconnectAttempt
     WebSocketManager.reconnectTimeout WebSocketManager.heartbeatInterval
     WebSocketManager.heartbeatTimeout
     WebSocketManager.sockets WebSocketManager.timers
     WebSocketManager.nextSocket WebSocketManager.nextTimer WebSocketManager.sent
     WebSocketManager.callback WebSocketManager.delay WebSocketManager.repeats
     snd fst].

Ltac split_all := repeat match goal with |- _ ∧ _ => split end.

Section Reconnect.

Import ConnectionSlice WebSocketManager Scenario.

(** C4.  With the attempt counter at [a], [scheduleReconnect] arms, for
    [a] in 0..4, exactly one timer whose delay is min(2^a * 1000 ms,
    30000 ms), a function of [a] alone, which is 2^a seconds since the cap
    is not reached; for [a] of 5 or more it arms no timer and touches
    neither the timers nor the fields of the manager. *)
Theorem scheduleReconnect_delay (w : World) :
  let a := WebSocketManager.reconnectAttempt (this w) in
  let w' := exec scheduleReconnect w in
  ((a ≤ 4)%nat →
     timers (host w')
     = <[nextTimer (host w) :=
           mkTimer ReconnectDelay (Z.min (2 ^ Z.of_nat a * 1000) (30 * 1000)) false]>
         (timers (host w))
     ∧ Z.min (2 ^ Z.of_nat a * 1000) (30 * 1000) = 2 ^ Z.of_nat a * 1000
     ∧ reconnectTimeout (this w') = Some (nextTimer (host w))
     ∧ store w' = store w)
  ∧ ((5 ≤ a)%nat →
     host w' = host w ∧ this w' = this w
     ∧ status (connection (store w')) = Error).
Proof.
  destruct w as [[sock a rt hi ht] st h]. run_method. split; intros Ha.
  - destruct (Nat.ltb_spec a maxReconnectAttempts) as [_|Hge];
      [|unfold maxReconnectAttempts in Hge; lia].
    repeat split.
    apply Z.min_l.
    assert (2 ^ Z.of_nat a ≤ 2 ^ 4) by (apply Z.pow_le_mono_r; lia).
    lia.
  - destruct (Nat.ltb_spec a maxReconnectAttempts) as [Hlt|_];
      [unfold maxReconnectAttempts in Hlt; lia|].
    done.
Qed.

Lemma scheduleReconnect_delay_witness :
  timers (host (exec scheduleReconnect
    (mkWorld (mkManager None 3 None None None) initialRootState (host initialWorld))))
  !! 1%positive
  = Some (mkTimer ReconnectDelay 8000 false)
  ∧ timers (host (exec scheduleReconnect
      (mkWorld (mkManager None 5 None None None) initialRootState (host initialWorld))))
    = ∅.
Proof.
  split.
  - destruct (scheduleReconnect_delay
      (mkWorld (mkManager None 3 None None None) initialRootState (host initialWorld)))
      as [Hlow _].
    destruct (Hlow ltac:(simpl; lia)) as (Ht & _).
    rewrite Ht. reflexivity.
  - destruct (scheduleReconnect_delay
      (mkWorld (mkManager None 5 None None None) initialRootState (host initialWorld)))
      as [_ Hhigh].
    destruct (Hhigh ltac:(simpl; lia)) as (Hh & _).
    rewrite Hh. reflexivity.
Defined.

End Reconnect.

Section Connect.

Import ConnectionSlice WebSocketManager Scenario.

(** C2, as stated, fails.  With the session open (slice status Connected,
    [getStatus()] "connected"), [connect()] sets the status back to
    Connecting and constructs a second socket, leaving the first one open;
    called once more while Connecting, it constructs a third. *)
Lemma connect_while_connected_opens_transport :
  ∃ w, run openSession initialWorld = Some w
       ∧ status (connection (store w)) = Connected
       ∧ getStatus w = "connected"
       ∧ exec (connect None) w ≠ w
       ∧ status (connection (store (exec (connect None) w))) = Connecting
       ∧ sockets (host (exec (connect None) w)) !! 1%positive = Some OPEN
       ∧ sockets (host (exec (connect None) w)) !! 2%positive = Some CONNECTING
       ∧ ws (this (exec (connect None) w)) = Some 2%positive
       ∧ exec (connect None) (exec (connect None) w) ≠ exec (connect None) w
       ∧ sockets (host (exec (connect None) (exec (connect None) w))) !! 3%positive
         = Some CONNECTING.
Proof.
  exists (default initialWorld (run openSession initialWorld)).
  split_all; try (vm_compute; reflexivity); intros H; by vm_compute in H.
Qed.

(** C2, amended.  In every state, [connect()] (whose constructor call
    returns) sets the status to Connecting, clears the error, constructs a
    fresh socket in state CONNECTING and makes it the current one; it
    closes no socket, arms and clears no timer, and keeps the attempt
    counter. *)
Theorem connect_always_opens_transport (w : World) :
  let w' := exec (connect None) w in
  status (connection (store w')) = Connecting
  ∧ error (connection (store w')) = None
  ∧ ws (this w') = Some (nextSocket (host w))
  ∧ sockets (host w') = <[nextSocket (host w) := CONNECTING]> (sockets (host w))
  ∧ nextSocket (host w') = Pos.succ (nextSocket (host w))
  ∧ timers (host w') = timers (host w)
  ∧ WebSocketManager.reconnectAttempt (this w')
    = WebSocketManager.reconnectAttempt (this w).
Proof. destruct w as [[sock a rt hi ht] st h]. by run_method. Qed.

End Connect.

Section Heartbeat.

Import ConnectionSlice WebSocketManager Scenario.

Lemma heartbeat_ping_step now ti s w :
  timers (host w) !! ti = Some (mkTimer HeartbeatPing HEARTBEAT_INTERVAL true) →
  ws (this w) = Some s →
  sockets (host w) !! s = Some OPEN →
  step now (TimerFires ti None) w
  = Some (mkWorld
            (mkManager (ws (this w)) (WebSocketManager.reconnectAttempt (this w))
               (reconnectTimeout (this w)) (heartbeatInterval (this w))
               (Some (nextTimer (host w))))
            (store w)
            (mkHost (sockets (host w))
               (<[nextTimer (host w) := mkTimer HeartbeatExpiry HEARTBEAT_TIMEOUT false]>
                  (timers (host w)))
               (nextSocket (host w)) (Pos.succ (nextTimer (host w)))
               (sent (host w) ++ [(s, "PING")]))).
Proof.
  destruct w as [[sock a rt hi ht] st [ss ts ns nt sn]]. simpl.
  intros Hti -> Hs. rewrite Hti. run_method. by rewrite Hs.
Qed.

Lemma heartbeat_expiry_step now t w :
  timers (host w) !! t = Some (mkTimer HeartbeatExpiry HEARTBEAT_TIMEOUT false) →
  ∃ w', step now (TimerFires t None) w = Some w'
        ∧ status (connection (store w')) = Connecting
        ∧ ws (this w') = Some (nextSocket (host w))
        ∧ sockets (host w') !! nextSocket (host w) = Some CONNECTING
        ∧ nextSocket (host w') = Pos.succ (nextSocket (host w))
        ∧ nextTimer (host w') = nextTimer (host w)
        ∧ timers (host w') ⊆ timers (host w)
        ∧ WebSocketManager.reconnectAttempt (this w')
          = WebSocketManager.reconnectAttempt (this w).
Proof.
  destruct w as [[sock a rt hi ht] st [ss ts ns nt sn]]. simpl.
  intros Ht. rewrite Ht. eexists. split; [reflexivity|].
  assert (Hclear : ∀ (h : option positive) (m : gmap positive Timer),
             match h with Some k => delete k m | None => m end ⊆ m).
  { intros [k|] m; [apply delete_subseteq|done]. }
  destruct sock as [s|], hi as [i|], ht as [e|], rt as [r|]; run_method;
    repeat match goal with
           | |- context [ss !! ?k] => destruct (ss !! k) as [[]|]
           end; run_method;
    (repeat split; [by rewrite lookup_insert_eq|]);
    repeat (etrans; [apply delete_subseteq|]); done.
Qed.

(** A PONG that arrives first disarms the expiry timer and records the
    time of the heartbeat. *)
Lemma pong_cancels_expiry now t w :
  heartbeatTimeout (this w) = Some t →
  timers (host (exec (handlePong now) w)) !! t = None
  ∧ lastHeartbeat (connection (store (exec (handlePong now) w))) = now
  ∧ status (connection (store (exec (handlePong now) w)))
    = status (connection (store w)).
Proof.
  destruct w as [[sock a rt hi ht] st [ss ts ns nt sn]]. simpl.
  intros ->. run_method. split; [apply lookup_delete_eq|done].
Qed.

(** C7.  The manager is Connected on an open socket.  The heartbeat
    interval fires: a PING is sent and an expiry timer of 5000 ms is
    armed.  If that timer fires (no PONG cleared it), its callback sets
    the status to Connecting and constructs a new socket in the same turn
    of the event loop: the attempt is not started by a reconnect timer,
    and the turn arms no timer at all. *)
Theorem heartbeat_timeout_reconnects_at_once (now1 now2 : Z) (ti s : positive) (w : World) :
  status (connection (store w)) = Connected →
  ws (this w) = Some s →
  sockets (host w) !! s = Some OPEN →
  timers (host w) !! ti = Some (mkTimer HeartbeatPing HEARTBEAT_INTERVAL true) →
  ∃ w1 w2,
    step now1 (TimerFires ti None) w = Some w1
    ∧ sent (host w1) = sent (host w) ++ [(s, "PING")]
    ∧ heartbeatTimeout (this w1) = Some (nextTimer (host w))
    ∧ timers (host w1) !! nextTimer (host w)
      = Some (mkTimer HeartbeatExpiry 5000 false)
    ∧ status (connection (store w1)) = Connected
    ∧ step now2 (TimerFires (nextTimer (host w)) None) w1 = Some w2
    ∧ status (connection (store w2)) = Connecting
    ∧ ws (this w2) = Some (nextSocket (host w))
    ∧ sockets (host w2) !! nextSocket (host w) = Some CONNECTING
    ∧ nextSocket (host w2) = Pos.succ (nextSocket (host w))
    ∧ nextTimer (host w2) = nextTimer (host w1)
    ∧ timers (host w2) ⊆ timers (host w1).
Proof.
  intros Hst Hws Hs Hti.
  pose proof (heartbeat_ping_step now1 ti s w Hti Hws Hs) as H1.
  set (w1 := mkWorld _ _ _) in H1.
  assert (Ht : timers (host w1) !! nextTimer (host w)
               = Some (mkTimer HeartbeatExpiry HEARTBEAT_TIMEOUT false))
    by (simpl; apply lookup_insert_eq).
  destruct (heartbeat_expiry_step now2 _ w1 Ht)
    as (w2 & H2 & Hc & Hw & Hsock & Hns & Hnt & Hsub & _).
  exists w1, w2. repeat split; try assumption; reflexivity.
Qed.

Lemma heartbeat_timeout_reconnects_at_once_witness :
  ∃ w w1 w2,
    run openSession initialWorld = Some w
    ∧ step 10040 (TimerFires 1 None) w = Some w1
    ∧ sent (host w1) = [(1%positive, "PING")]
    ∧ step 15040 (TimerFires 2 None) w1 = Some w2
    ∧ status (connection (store w2)) = Connecting
    ∧ sockets (host w2) !! 2%positive = Some CONNECTING.
Proof.
  eexists. 
  destruct (heartbeat_timeout_reconnects_at_once 10040 15040 1 1
              (default initialWorld (run openSession initialWorld)))
    as (w1 & w2 & H1 & Hsent & _ & _ & _ & H2 & Hst & _ & Hsock & _);
    [reflexivity..|].
  exists w1, w2. split; [reflexivity|].
  repeat split; assumption.
Defined.

End Heartbeat.

Section Disconnect.

Import ConnectionSlice WebSocketManager Scenario.

(** What [disconnect()] does achieve: when it returns, the current socket
    is dropped, none of the three timer handles the manager holds is still
    armed, no timer was armed, and the store is untouched. *)
Lemma disconnect_clears_held_timers (w : World) :
  let w' := exec disconnect w in
  ws (this w') = None
  ∧ (∀ t, reconnectTimeout (this w) = Some t → timers (host w') !! t = None)
  ∧ (∀ t, heartbeatInterval (this w) = Some t → timers (host w') !! t = None)
  ∧ (∀ t, heartbeatTimeout (this w) = Some t → timers (host w') !! t = None)
  ∧ timers (host w') ⊆ timers (host w)
  ∧ store w' = store w.
Proof.
  destruct w as [[sock a rt hi ht] st [ss ts ns nt sn]].
  destruct sock as [s|], hi as [i|], ht as [e|], rt as [r|]; run_method;
    repeat match goal with
           | |- context [ss !! ?k] => destruct (ss !! k) as [[]|]
           end; run_method;
    repeat split; try done;
    try (intros t Ht; simplify_eq; rewrite ?lookup_delete; repeat case_decide; done);
    repeat (etrans; [apply delete_subseteq|]); done.
Qed.

(** C1 fails on the code.  A session is open; the caller disconnects, and
    [disconnect()] returns with no timer armed.  The handlers of the
    socket it closed are still installed: the close event runs [onclose],
    which arms a reconnect timer; one second later that timer fires and
    opens a new transport, although [connect()] was never called again. *)
Theorem reconnect_timer_fires_after_disconnect :
  ∃ w0 w1 w2 w3,
    run openSession initialWorld = Some w0
    ∧ step 4000 CallDisconnect w0 = Some w1
    ∧ timers (host w1) = ∅
    ∧ ws (this w1) = None
    ∧ Forall (fun e => isCall e.2 = false) afterDisconnect
    ∧ step 5000 (SocketClose 1) w1 = Some w2
    ∧ timers (host w2) !! 2%positive = Some (mkTimer ReconnectDelay 1000 false)
    ∧ step 6000 (TimerFires 2 None) w2 = Some w3
    ∧ run afterDisconnect w1 = Some w3
    ∧ WebSocketManager.reconnectAttempt (this w3) = 1%nat
    ∧ status (connection (store w3)) = Connecting
    ∧ ws (this w3) = Some 2%positive
    ∧ sockets (host w3) !! 2%positive = Some CONNECTING.
Proof.
  exists (default initialWorld (run openSession initialWorld)).
  exists (default initialWorld
            (run (openSession ++ [(4000, CallDisconnect)]) initialWorld)).
  exists (default initialWorld
            (run (openSession ++ [(4000, CallDisconnect); (5000, SocketClose 1)])
               initialWorld)).
  exists (default initialWorld
            (run (openSession ++ [(4000, CallDisconnect)] ++ afterDisconnect)
               initialWorld)).
  split_all; try (vm_compute; reflexivity).
  by repeat constructor.
Qed.

End Disconnect.

Section GivingUp.

Import ConnectionSlice WebSocketManager Scenario Retries.

(** In a quiescent state the platform has no event to deliver. *)
Lemma quiescent_no_event now e w :
  quiescent w → isCall e = false → step now e w = None.
Proof.
  intros [Ht Hs] He.
  destruct e as [thr| |s|s m|s|s|t thr]; try discriminate; simpl.
  1-4: destruct (sockets (host w) !! s) as [r|] eqn:E; [|done];
       apply Hs in E; by subst r.
  by rewrite Ht, lookup_empty.
Qed.

Lemma quiescent_disconnect w :
  quiescent w →
  quiescent (exec disconnect w)
  ∧ store (exec disconnect w) = store w
  ∧ nextSocket (host (exec disconnect w)) = nextSocket (host w)
  ∧ WebSocketManager.reconnectAttempt (this (exec disconnect w))
    = WebSocketManager.reconnectAttempt (this w).
Proof.
  destruct w as [[sock a rt hi ht] st [ss ts ns nt sn]].
  intros [Ht Hs]. simpl in Ht, Hs. subst ts.
  assert (Hclosed : ∀ s, ss !! s = None ∨ ss !! s = Some CLOSED).
  { intros s. destruct (ss !! s) as [r|] eqn:E; [right|by left].
    by rewrite (Hs _ _ E). }
  unfold quiescent.
  destruct sock as [s|], hi as [i|], ht as [e|], rt as [r|]; run_method;
    try (destruct (Hclosed s) as [-> | ->]); run_method;
    rewrite ?delete_empty; done.
Qed.

(** Without a call of [connect()], a quiescent manager stays as it is: it
    opens no transport and the status the store shows does not change. *)
Lemma quiescent_until_connect trace w w' :
  quiescent w →
  Forall (fun e => isCallConnect e.2 = false) trace →
  run trace w = Some w' →
  quiescent w' ∧ store w' = store w
  ∧ nextSocket (host w') = nextSocket (host w)
  ∧ WebSocketManager.reconnectAttempt (this w')
    = WebSocketManager.reconnectAttempt (this w).
Proof.
  intros Hq Hall. revert w Hq.
  induction Hall as [|[now e] trace He _ IH]; intros w Hq Hrun.
  - simpl in Hrun. by simplify_eq.
  - simpl in He.
    change (run ((now, e) :: trace) w)
      with (match step now e w with Some w1 => run trace w1 | None => None end)
      in Hrun.
    destruct (isCall e) eqn:Hcall.
    2: { by rewrite (quiescent_no_event now e w Hq Hcall) in Hrun. }
    destruct e as [thr| |s|s m|s|s|t thr]; try discriminate.
    simpl in Hrun.
    destruct (quiescent_disconnect w Hq) as (Hq' & Hst & Hns & Ha).
    destruct (IH _ Hq' Hrun) as (? & ? & ? & ?).
    split; [done|]. repeat split; congruence.
Qed.

(** C5, as stated, fails twice.  After five consecutive failed attempts
    the manager has not given up: the status is Disconnected, a reconnect
    timer of 16 s is armed, and when it fires a sixth transport is opened.
    And once the manager has given up (after the sixth failure), an
    explicit [connect()] leaves the attempt counter at 5. *)
Lemma five_failures_not_given_up :
  ∃ w5 w6 wG,
    run fiveFailures initialWorld = Some w5
    ∧ status (connection (store w5)) = Disconnected
    ∧ nextSocket (host w5) = 6%positive
    ∧ WebSocketManager.reconnectAttempt (this w5) = 4%nat
    ∧ timers (host w5) !! 5%positive = Some (mkTimer ReconnectDelay 16000 false)
    ∧ step 31050 (TimerFires 5 None) w5 = Some w6
    ∧ sockets (host w6) !! 6%positive = Some CONNECTING
    ∧ nextSocket (host w6) = 7%positive
    ∧ run sixFailures initialWorld = Some wG
    ∧ status (connection (store wG)) = Error
    ∧ WebSocketManager.reconnectAttempt (this wG) = 5%nat
    ∧ WebSocketManager.reconnectAttempt (this (exec (connect None) wG)) = 5%nat.
Proof.
  exists (default initialWorld (run fiveFailures initialWorld)).
  exists (default initialWorld
            (run (fiveFailures ++ [(31050, TimerFires 5 None)]) initialWorld)).
  exists (default initialWorld (run sixFailures initialWorld)).
  split_all; vm_compute; reflexivity.
Qed.

Lemma all_closed_by_computation (m : gmap positive ReadyState) :
  bool_decide (map_Forall (fun _ r => r = CLOSED) m) = true →
  ∀ s r, m !! s = Some r → r = CLOSED.
Proof. intros H. exact (bool_decide_eq_true_1 _ H). Qed.

Lemma run_app trace1 trace2 w :
  run (trace1 ++ trace2) w
  = match run trace1 w with
    | Some w1 => run trace2 w1
    | None => None
    end.
Proof.
  revert w. induction trace1 as [|[now e] trace1 IH]; intros w; [done|].
  simpl. destruct (step now e w); [apply IH|done].
Qed.

Lemma held_timers_cleared (hi ht : option positive) (ts : gmap positive Timer) :
  map_Forall (fun t (_ : Timer) => hi = Some t ∨ ht = Some t) ts →
  match ht with
  | Some x => delete x
  | None => fun m => m
  end (match hi with
       | Some i => delete i ts
       | None => ts
       end) = ∅.
Proof.
  intros Hts. apply map_empty. intros k.
  assert (Hk : ∀ tm, ts !! k = Some tm → hi = Some k ∨ ht = Some k)
    by (intros tm; apply Hts).
  destruct hi as [i|], ht as [x|]; rewrite ?lookup_delete;
    repeat case_decide; try done;
    destruct (ts !! k) as [tm|] eqn:E; try done;
    destruct (Hk tm eq_refl) as [?|?]; simplify_eq.
Qed.

(** The close event of the only transport in flight, below the maximum:
    one reconnect timer is armed and nothing else is. *)
Lemma failure_arms_retry (f : Failure) (s : positive) (w : World) :
  soleTransport s w →
  (WebSocketManager.reconnectAttempt (this w) < maxReconnectAttempts)%nat →
  ∃ w1,
    run (failureOf f s) w = Some w1
    ∧ WebSocketManager.reconnectAttempt (this w1)
      = WebSocketManager.reconnectAttempt (this w)
    ∧ status (connection (store w1)) = Disconnected
    ∧ map_Forall (fun _ r => r = CLOSED) (sockets (host w1))
    ∧ timers (host w1)
      = {[nextTimer (host w) :=
            mkTimer ReconnectDelay
              (2 ^ Z.of_nat (WebSocketManager.reconnectAttempt (this w)) * 1000)
              false]}
    ∧ nextSocket (host w1) = nextSocket (host w)
    ∧ nextTimer (host w1) = Pos.succ (nextTimer (host w)).
Proof.
  destruct w as [[sock a rt hi ht] st [ss ts ns nt sn]].
  intros (Hws & Hs & Hss & Hts) Ha. simpl in Hws, Hs, Hss, Hts, Ha. subst sock.
  pose proof (held_timers_cleared hi ht ts Hts) as Hclear.
  assert (Hmin : Z.min (2 ^ Z.of_nat a * 1000) 30000 = 2 ^ Z.of_nat a * 1000).
  { apply Z.min_l. unfold maxReconnectAttempts in Ha.
    assert (2 ^ Z.of_nat a ≤ 2 ^ 4) by (apply Z.pow_le_mono_r; lia). lia. }
  assert (Hclosed : map_Forall (fun _ r => r = CLOSED) (<[s := CLOSED]> ss)).
  { apply map_Forall_lookup. intros k r. rewrite lookup_insert.
    case_decide; [congruence|]. intros Hk.
    destruct (Hss k r Hk); congruence. }
  apply Nat.ltb_lt in Ha.
  unfold failureOf.
  destruct f as [[] closed], hi as [i|], ht as [x|], Hs as [Hs|Hs];
    simpl in Hclear |- *; rewrite ?Hs; run_method; rewrite ?Hs; run_method;
    rewrite Ha; run_method.
  all: (eexists; split; [reflexivity|]); run_method;
    rewrite ?Hclear, ?Hmin; split_all; try done.
Qed.

(** At the maximum, the close event gives up: the error is shown, no
    timer is armed, every socket is closed. *)
Lemma failure_gives_up (f : Failure) (s : positive) (w : World) :
  soleTransport s w →
  (maxReconnectAttempts ≤ WebSocketManager.reconnectAttempt (this w))%nat →
  ∃ wG,
    run (failureOf f s) w = Some wG
    ∧ this wG = this w
    ∧ status (connection (store wG)) = Error
    ∧ error (connection (store wG))
      = Some "Max reconnection attempts reached. Please restart app."
    ∧ quiescent wG
    ∧ nextSocket (host wG) = nextSocket (host w)
    ∧ nextTimer (host wG) = nextTimer (host w).
Proof.
  destruct w as [[sock a rt hi ht] st [ss ts ns nt sn]].
  intros (Hws & Hs & Hss & Hts) Ha. simpl in Hws, Hs, Hss, Hts, Ha. subst sock.
  pose proof (held_timers_cleared hi ht ts Hts) as Hclear.
  assert (Hclosed : ∀ k r, <[s := CLOSED]> ss !! k = Some r → r = CLOSED).
  { intros k r. rewrite lookup_insert.
    case_decide; [congruence|]. intros Hk.
    destruct (Hss k r Hk); congruence. }
  apply Nat.ltb_ge in Ha.
  unfold failureOf, quiescent.
  destruct f as [[] closed], hi as [i|], ht as [x|], Hs as [Hs|Hs];
    simpl in Hclear |- *; rewrite ?Hs; run_method; rewrite ?Hs; run_method;
    rewrite Ha; run_method;
    (eexists; split; [reflexivity|]); run_method;
    rewrite ?Hclear; split_all; done.
Qed.

(** The reconnect timer fires: the counter goes up by one and the new
    socket is the only transport in flight. *)
Lemma retry_fires (now : Z) (t : positive) (tm : Timer) (w : World) :
  timers (host w) = {[t := tm]} →
  callback tm = ReconnectDelay → repeats tm = false →
  map_Forall (fun _ r => r = CLOSED) (sockets (host w)) →
  ∃ w',
    step now (TimerFires t None) w = Some w'
    ∧ soleTransport (nextSocket (host w)) w'
    ∧ WebSocketManager.reconnectAttempt (this w')
      = S (WebSocketManager.reconnectAttempt (this w))
    ∧ status (connection (store w')) = Connecting
    ∧ nextSocket (host w') = Pos.succ (nextSocket (host w))
    ∧ nextTimer (host w') = nextTimer (host w).
Proof.
  destruct w as [[sock a rt hi ht] st [ss ts ns nt sn]], tm as [cb d rep].
  simpl. intros -> -> -> Hss.
  rewrite lookup_singleton_eq. run_method. rewrite delete_singleton_eq.
  eexists. split; [reflexivity|]. unfold soleTransport. run_method.
  split_all; try done.
  - left. apply lookup_insert_eq.
  - apply map_Forall_insert_2; [by left|].
    eapply map_Forall_impl; [exact Hss|]. intros; by right.
  - lia.
Qed.

(** Below the maximum nothing is given up: after the transport in flight
    is lost and any number of retries that keeps the counter below the
    maximum has failed, the status is Disconnected and the next retry is
    pending. *)
Lemma retries_pending (retries : list (Z * Failure)) :
  ∀ (first : Failure) (s : positive) (w : World),
    soleTransport s w →
    (WebSocketManager.reconnectAttempt (this w) + length retries
     < maxReconnectAttempts)%nat →
    ∃ w',
      run (failureOf first s
           ++ failedRetries retries (nextSocket (host w)) (nextTimer (host w))) w
      = Some w'
      ∧ status (connection (store w')) = Disconnected
      ∧ timers (host w')
        = {[Nat.iter (length retries) Pos.succ (nextTimer (host w)) :=
              mkTimer ReconnectDelay
                (2 ^ Z.of_nat (WebSocketManager.reconnectAttempt (this w)
                               + length retries) * 1000)
                false]}
      ∧ nextSocket (host w')
        = Nat.iter (length retries) Pos.succ (nextSocket (host w)).
Proof.
  induction retries as [|[firedAt f] rest IH]; intros first s w Hsole Ha.
  - cbn [length] in Ha. rewrite app_nil_r.
    destruct (failure_arms_retry first s w Hsole)
      as (w1 & Hrun & Hcnt & Hst & _ & Hts & Hns & _); [lia|].
    exists w1. simpl. rewrite Nat.add_0_r. done.
  - cbn [length] in Ha.
    destruct (failure_arms_retry first s w Hsole)
      as (w1 & Hrun & Hcnt & _ & Hss & Hts & Hns & Hnt); [lia|].
    destruct (retry_fires firedAt _ _ w1 Hts eq_refl eq_refl Hss)
      as (w2 & Hstep & Hsole2 & Hcnt2 & _ & Hns2 & Hnt2).
    destruct (IH f (nextSocket (host w1)) w2 Hsole2) as (w' & Hrun' & Hst' & Hts' & Hns');
      [rewrite Hcnt2, Hcnt; lia|].
    exists w'. rewrite run_app, Hrun.
    cbn [failedRetries run]. rewrite Hstep.
    rewrite Hns2, Hnt2, Hns, Hnt in Hrun'. rewrite Hrun'.
    split; [done|]. split; [done|].
    rewrite Hts', Hns', Hcnt2, Hcnt, Hnt2, Hnt, Hns2, Hns.
    cbn [length]. rewrite !Nat.iter_succ_r.
    split; [|done].
    by replace (S (WebSocketManager.reconnectAttempt (this w)) + length rest)%nat
      with (WebSocketManager.reconnectAttempt (this w) + S (length rest))%nat by lia.
Qed.

(** When the retries that fail bring the counter to the maximum, the last
    failure gives up. *)
Lemma retries_exhausted (retries : list (Z * Failure)) :
  ∀ (first : Failure) (s : positive) (w : World),
    soleTransport s w →
    (WebSocketManager.reconnectAttempt (this w) + length retries
     = maxReconnectAttempts)%nat →
    ∃ wG,
      run (failureOf first s
           ++ failedRetries retries (nextSocket (host w)) (nextTimer (host w))) w
      = Some wG
      ∧ status (connection (store wG)) = Error
      ∧ error (connection (store wG))
        = Some "Max reconnection attempts reached. Please restart app."
      ∧ WebSocketManager.reconnectAttempt (this wG) = maxReconnectAttempts
      ∧ quiescent wG
      ∧ nextSocket (host wG)
        = Nat.iter (length retries) Pos.succ (nextSocket (host w)).
Proof.
  induction retries as [|[firedAt f] rest IH]; intros first s w Hsole Ha.
  - cbn [length] in Ha. rewrite app_nil_r.
    destruct (failure_gives_up first s w Hsole)
      as (wG & Hrun & Hthis & Hst & Herr & Hq & Hns & _); [lia|].
    exists wG. rewrite Hthis. simpl. split_all; try done. lia.
  - cbn [length] in Ha.
    destruct (failure_arms_retry first s w Hsole)
      as (w1 & Hrun & Hcnt & _ & Hss & Hts & Hns & Hnt); [lia|].
    destruct (retry_fires firedAt _ _ w1 Hts eq_refl eq_refl Hss)
      as (w2 & Hstep & Hsole2 & Hcnt2 & _ & Hns2 & Hnt2).
    destruct (IH f (nextSocket (host w1)) w2 Hsole2)
      as (wG & Hrun' & Hst' & Herr' & Hcnt' & Hq' & Hns');
      [rewrite Hcnt2, Hcnt; lia|].
    exists wG. rewrite run_app, Hrun.
    cbn [failedRetries run]. rewrite Hstep.
    rewrite Hns2, Hnt2, Hns, Hnt in Hrun'. rewrite Hrun'.
    split_all; try done.
    rewrite Hns', Hns2, Hns. cbn [length]. by rewrite Nat.iter_succ_r.
Qed.

(** An explicit [connect()] in a quiescent state opens the one transport
    in flight and leaves the attempt counter alone. *)
Lemma connect_when_quiescent (w : World) :
  quiescent w →
  soleTransport (nextSocket (host w)) (exec (connect None) w)
  ∧ status (connection (store (exec (connect None) w))) = Connecting
  ∧ sockets (host (exec (connect None) w)) !! nextSocket (host w) = Some CONNECTING
  ∧ ws (this (exec (connect None) w)) = Some (nextSocket (host w))
  ∧ WebSocketManager.reconnectAttempt (this (exec (connect None) w))
    = WebSocketManager.reconnectAttempt (this w)
  ∧ nextSocket (host (exec (connect None) w)) = Pos.succ (nextSocket (host w)).
Proof.
  destruct w as [[sock a rt hi ht] st [ss ts ns nt sn]].
  intros [Ht Hs]. simpl in Ht, Hs. subst ts.
  unfold soleTransport. run_method.
  split_all; try done; try apply lookup_insert_eq.
  - left. apply lookup_insert_eq.
  - apply map_Forall_insert_2; [by left|].
    apply map_Forall_lookup. intros k r Hk. right. by apply (Hs k).
Qed.

(** C5, amended.  What the manager counts are the automatic retries: the
    reconnect timer raises the attempt counter, the close event of a lost
    transport tests it, and only an open event resets it.  So take any
    state with one transport in flight (connecting, or open with its
    heartbeat) and let that transport be lost and every retry fail.  As
    long as the counter plus the number of failed retries is below
    [maxReconnectAttempts] nothing is given up: the status is Disconnected
    and the next retry is pending, after 2^attempt seconds.  When it
    reaches [maxReconnectAttempts] the manager is given up: status Error
    with the message "Max reconnection attempts reached", no timer armed,
    every socket closed, and exactly as many transports opened as retries
    were made.  With the counter at 0 this is after five failed retries:
    five failed attempts after a session that had opened is dropped, six
    failed attempts when the first [connect()] of a fresh manager fails
    too.  Once given up, no transport is opened and the store does not
    change until [connect()] is called.  [connect()] then sets the status
    to Connecting and opens one transport with the counter still at the
    maximum; the counter returns to 0 when that transport opens, and if it
    fails instead the manager is given up again at once, without a retry. *)
Theorem gives_up_after_max_failed_retries
    (w : World) (s : positive) (first : Failure) :
  soleTransport s w →
  let a := WebSocketManager.reconnectAttempt (this w) in
  let lost := fun retries =>
    failureOf first s
    ++ failedRetries retries (nextSocket (host w)) (nextTimer (host w)) in
  (∀ retries, (a + length retries < maxReconnectAttempts)%nat →
     ∃ w',
       run (lost retries) w = Some w'
       ∧ status (connection (store w')) = Disconnected
       ∧ timers (host w')
         = {[Nat.iter (length retries) Pos.succ (nextTimer (host w)) :=
               mkTimer ReconnectDelay
                 (2 ^ Z.of_nat (a + length retries) * 1000) false]}
       ∧ nextSocket (host w')
         = Nat.iter (length retries) Pos.succ (nextSocket (host w)))
  ∧ (∀ retries, (a + length retries = maxReconnectAttempts)%nat →
     ∃ wG,
       run (lost retries) w = Some wG
       ∧ status (connection (store wG)) = Error
       ∧ error (connection (store wG))
         = Some "Max reconnection attempts reached. Please restart app."
       ∧ WebSocketManager.reconnectAttempt (this wG) = maxReconnectAttempts
       ∧ nextSocket (host wG)
         = Nat.iter (length retries) Pos.succ (nextSocket (host w))
       ∧ quiescent wG
       ∧ (∀ trace w',
            Forall (fun e => isCallConnect e.2 = false) trace →
            run trace wG = Some w' →
            nextSocket (host w') = nextSocket (host wG)
            ∧ store w' = store wG
            ∧ quiescent w')
       ∧ status (connection (store (exec (connect None) wG))) = Connecting
       ∧ sockets (host (exec (connect None) wG)) !! nextSocket (host wG)
         = Some CONNECTING
       ∧ ws (this (exec (connect None) wG)) = Some (nextSocket (host wG))
       ∧ WebSocketManager.reconnectAttempt (this (exec (connect None) wG))
         = maxReconnectAttempts
       ∧ (∀ now, ∃ wOpen,
            step now (SocketOpen (nextSocket (host wG))) (exec (connect None) wG)
            = Some wOpen
            ∧ status (connection (store wOpen)) = Connected
            ∧ WebSocketManager.reconnectAttempt (this wOpen) = 0%nat)
       ∧ (∀ f, ∃ wFail,
            run (failureOf f (nextSocket (host wG))) (exec (connect None) wG)
            = Some wFail
            ∧ status (connection (store wFail)) = Error
            ∧ nextSocket (host wFail) = Pos.succ (nextSocket (host wG))
            ∧ quiescent wFail)).
Proof.
  intros Hsole. cbv zeta. split.
  - intros retries Ha. by apply retries_pending.
  - intros retries Ha.
    destruct (retries_exhausted retries first s w Hsole Ha)
      as (wG & Hrun & Hst & Herr & Hcnt & Hq & Hns).
    destruct (connect_when_quiescent wG Hq)
      as (HsoleC & HstC & HsockC & HwsC & HcntC & HnsC).
    exists wG.
    split; [exact Hrun|]. split; [exact Hst|]. split; [exact Herr|].
    split; [exact Hcnt|]. split; [exact Hns|]. split; [exact Hq|].
    split.
    { intros trace w' Hall Hrun'.
      destruct (quiescent_until_connect trace _ w' Hq Hall Hrun') as (? & ? & ? & _).
      done. }
    split; [exact HstC|]. split; [exact HsockC|]. split; [exact HwsC|].
    split; [congruence|].
    split.
    { intros now. cbn [step]. rewrite HsockC.
      eexists. split; [reflexivity|].
      by destruct (exec (connect None) wG) as [[sock a rt hi ht] st [ss ts ns nt sn]]. }
    intros f.
    destruct (failure_gives_up f _ _ HsoleC)
      as (wF & HrunF & HthisF & HstF & _ & HqF & HnsF & _); [lia|].
    exists wF. split; [exact HrunF|]. split; [exact HstF|].
    split; [congruence|exact HqF].
Qed.

Lemma gives_up_after_max_failed_retries_witness :
  (∃ wG,
     run (failureOf (mkFailure false 5000) 1 ++ failedRetries fiveRetries 2 2)
       (default initialWorld (run openSession initialWorld)) = Some wG
     ∧ status (connection (store wG)) = Error
     ∧ nextSocket (host wG) = 7%positive)
  ∧ (∃ w',
       run (failureOf (mkFailure true 10) 1 ++ failedRetries (take 4 fiveRetries) 2 1)
         (exec (connect None) initialWorld) = Some w'
       ∧ status (connection (store w')) = Disconnected
       ∧ timers (host w') = {[5%positive := mkTimer ReconnectDelay 16000 false]})
  ∧ (∃ wG,
       run (failureOf (mkFailure true 10) 1 ++ failedRetries fiveRetries 2 1)
         (exec (connect None) initialWorld) = Some wG
       ∧ status (connection (store wG)) = Error
       ∧ nextSocket (host wG) = 7%positive).
Proof.
  assert (Hopen : soleTransport 1 (default initialWorld (run openSession initialWorld))).
  { refine (bool_decide_unpack _ _). vm_compute. exact I. }
  assert (Hfresh : soleTransport 1 (exec (connect None) initialWorld)).
  { refine (bool_decide_unpack _ _). vm_compute. exact I. }
  destruct (gives_up_after_max_failed_retries _ 1 (mkFailure false 5000) Hopen)
    as [_ HmaxO].
  destruct (gives_up_after_max_failed_retries _ 1 (mkFailure true 10) Hfresh)
    as [HbelowF HmaxF].
  split; [|split].
  - destruct (HmaxO fiveRetries eq_refl) as (wG & Hrun & Hst & _ & _ & Hns & _).
    exists wG. split; [exact Hrun|]. split; [exact Hst|exact Hns].
  - destruct (HbelowF (take 4 fiveRetries)) as (w' & Hrun & Hst & Hts & _);
      [vm_compute; lia|].
    exists w'. split; [exact Hrun|]. split; [exact Hst|exact Hts].
  - destruct (HmaxF fiveRetries eq_refl) as (wG & Hrun & Hst & _ & _ & Hns & _).
    exists wG. split; [exact Hrun|]. split; [exact Hst|exact Hns].
Defined.

End GivingUp.

(** ** The store commands *)

Section InsertMessage.

Import Db.

(** A call whose INSERT fails, for whatever reason, changes nothing. *)
Lemma insertMessage_insert_failure cond1 cond2 chatId messageId ts sender body inc d msg :
  runStatement cond1
    (sqlInsertMessage (mkMessageRow messageId chatId ts sender body)) d = inl msg →
  insertMessage cond1 cond2 chatId messageId ts sender body inc d = (Threw msg, d).
Proof. intros H. unfold insertMessage. by rewrite H. Qed.

(** When the engine raises no condition of its own, the schema alone makes
    the call all-or-nothing: it throws and changes nothing, or it returns
    with the message row appended and the row of the chat, which the
    foreign key guarantees to exist, updated. *)
Lemma insertMessage_without_engine_error chatId messageId ts sender body inc d :
  (∃ msg, insertMessage None None chatId messageId ts sender body inc d = (Threw msg, d))
  ∨ (hasChat chatId d = true
     ∧ insertMessage None None chatId messageId ts sender body inc d
       = (Returned,
          mkDatabase
            (map (fun c =>
                    if String.eqb (id c) chatId
                    then mkChatRow (id c) (title c) ts
                           (if inc then unreadCount c + 1 else unreadCount c)
                    else c)
               (chats d))
            (messages d ++ [mkMessageRow messageId chatId ts sender body]))).
Proof.
  unfold insertMessage, runStatement, sqlInsertMessage. simpl.
  destruct (hasMessage messageId d); [left; eauto|].
  destruct (hasChat chatId d) eqn:Hc; simpl; [|left; eauto].
  right. split; [done|]. by destruct inc.
Qed.

(** C6 fails on the code.  The two statements of [insertMessage] commit
    separately.  Chat "c1" exists and message "m1" is new, so the INSERT
    succeeds; the engine then fails the UPDATE.  The call throws, the
    message row is in the table, and the chat row still has its old
    [lastMessageAt] and unread counter. *)
Theorem insertMessage_leaves_message_without_chat_update :
  insertMessage None (Some "database or disk is full")
    "c1" "m1" 200 "user_001" "Got it, thanks!" true Scenario.storeWithOneChat
  = (Threw "database or disk is full",
     mkDatabase
       [mkChatRow "c1" "Chat 1" 100 0]
       [mkMessageRow "m1" "c1" 200 "user_001" "Got it, thanks!"])
  ∧ wellFormed Scenario.storeWithOneChat
  ∧ insertMessage None None
      "c1" "m1" 200 "user_001" "Got it, thanks!" true Scenario.storeWithOneChat
    = (Returned,
       mkDatabase
         [mkChatRow "c1" "Chat 1" 200 1]
         [mkMessageRow "m1" "c1" 200 "user_001" "Got it, thanks!"]).
Proof.
  split; [reflexivity|]. split; [|reflexivity].
  repeat split.
  - apply NoDup_singleton.
  - apply NoDup_nil_2.
  - intros m Hm. by apply elem_of_nil in Hm.
Qed.

End InsertMessage.

(** * Further properties of the code *)

(** ** The connection manager: frames *)

Section Frames.

Import ConnectionSlice WebSocketManager Scenario Stream.

Lemma onmessage_not_pong now m w :
  isPong m = false →
  this (exec (onmessage now m) w) = this w
  ∧ host (exec (onmessage now m) w) = host w
  ∧ connection (store (exec (onmessage now m) w)) = connection (store w).
Proof.
  unfold isPong, onmessage, handleMessage. intros Hp. rewrite Hp.
  by destruct (String.eqb (type m) "NEW_MESSAGE").
Qed.

(** Frames other than PONG never reach the connection machinery: a stream
    of them leaves the fields of the manager, the timers, the sockets and
    the connection slice as they were, so a heartbeat expiry that is armed
    stays armed; a frame that is neither NEW_MESSAGE nor PONG changes
    nothing at all. *)
Theorem frames_leave_connection_alone (frames : list (Z * WSMessage)) (w : World) :
  Forall (fun f => isPong f.2 = false) frames →
  this (deliver frames w) = this w
  ∧ host (deliver frames w) = host w
  ∧ connection (store (deliver frames w)) = connection (store w)
  ∧ (Forall (fun f => type f.2 ≠ "NEW_MESSAGE") frames → deliver frames w = w).
Proof.
  intros Hall. revert w.
  induction Hall as [|[now m] frames Hp _ IH]; intros w; [done|].
  change (deliver ((now, m) :: frames) w)
    with (deliver frames (exec (onmessage now m) w)).
  destruct (IH (exec (onmessage now m) w)) as (Ht & Hh & Hc & Hid).
  destruct (onmessage_not_pong now m w Hp) as (Ht' & Hh' & Hc').
  split; [congruence|]. split; [congruence|]. split; [congruence|].
  intros Hnew. apply Forall_cons in Hnew as [Hm Hrest].
  rewrite (Hid Hrest). simpl in Hm, Hp.
  unfold onmessage, handleMessage. unfold isPong in Hp. rewrite Hp.
  apply String.eqb_neq in Hm. by rewrite Hm.
Qed.

Lemma frames_leave_connection_alone_witness :
  timers (host (deliver [(10, newMessage "a" "m1" 9);
                         (11, mkWSMessage "TYPING" (data (newMessage "a" "m2" 9)))]
                  (default initialWorld (run openSession initialWorld))))
  = timers (host (default initialWorld (run openSession initialWorld))).
Proof.
  destruct (frames_leave_connection_alone
              [(10, newMessage "a" "m1" 9);
               (11, mkWSMessage "TYPING" (data (newMessage "a" "m2" 9)))]
              (default initialWorld (run openSession initialWorld)))
    as (_ & Hh & _).
  - repeat constructor.
  - by rewrite Hh.
Defined.

(** A PONG disarms the expiry timer the manager holds: after it the timer
    can no longer fire.  It records the time of the heartbeat and touches
    neither the chat list, the message view nor the fields of the manager. *)
Theorem pong_disarms_expiry (now later : Z) (t : positive) (thrown : option string)
    (w : World) :
  heartbeatTimeout (this w) = Some t →
  step later (TimerFires t thrown) (exec (onmessage now pong) w) = None
  ∧ lastHeartbeat (connection (store (exec (onmessage now pong) w))) = now
  ∧ status (connection (store (exec (onmessage now pong) w)))
    = status (connection (store w))
  ∧ chats (store (exec (onmessage now pong) w)) = chats (store w)
  ∧ messages (store (exec (onmessage now pong) w)) = messages (store w)
  ∧ this (exec (onmessage now pong) w) = this w
  ∧ sockets (host (exec (onmessage now pong) w)) = sockets (host w).
Proof.
  destruct w as [[sock a rt hi ht] st [ss ts ns nt sn]]. simpl.
  intros ->. change (exec (onmessage now pong)) with (exec (handlePong now)).
  run_method. simpl. by rewrite lookup_delete_eq.
Qed.

Lemma pong_disarms_expiry_witness :
  step 12000 (TimerFires 2 None)
    (exec (onmessage 11000 pong)
       (default initialWorld
          (run (openSession ++ [(10040, TimerFires 1 None)]) initialWorld)))
  = None.
Proof.
  apply (pong_disarms_expiry 11000 12000 2 None
           (default initialWorld
              (run (openSession ++ [(10040, TimerFires 1 None)]) initialWorld))).
  reflexivity.
Defined.

End Frames.

(** ** The message view under a stream of frames *)

Section MessageView.

Import WebSocketManager Scenario Stream.

Lemma onmessage_messages now m w :
  messages (store (exec (onmessage now m) w))
  = if String.eqb (type m) "NEW_MESSAGE"
    then MessagesSlice.addMessage (asMessage (data m)) (messages (store w))
    else messages (store w).
Proof.
  unfold onmessage, handleMessage.
  destruct (String.eqb (type m) "NEW_MESSAGE"); [reflexivity|].
  destruct (String.eqb (type m) "PONG"); [|reflexivity].
  by destruct w as [[sock a rt hi [t|]] st h].
Qed.

Lemma addMessage_selected payload s :
  MessagesSlice.selectedChatId (MessagesSlice.addMessage payload s)
  = MessagesSlice.selectedChatId s.
Proof.
  unfold MessagesSlice.addMessage.
  destruct (MessagesSlice.selectedChatId s) as [sel|] eqn:E; [|done].
  by destruct (String.eqb sel (MessagesSlice.chatId payload)).
Qed.

(** Whatever frames arrive, the message view keeps its selection and
    grows by exactly the NEW_MESSAGE frames for the selected chat, appended
    in order of arrival; with no chat selected it shows nothing new. *)
Theorem message_view_appends_selected (frames : list (Z * WSMessage)) (w : World) :
  MessagesSlice.selectedChatId (messages (store (deliver frames w)))
  = MessagesSlice.selectedChatId (messages (store w))
  ∧ MessagesSlice.items (messages (store (deliver frames w)))
    = MessagesSlice.items (messages (store w))
      ++ shownOf (MessagesSlice.selectedChatId (messages (store w))) frames.
Proof.
  revert w. induction frames as [|[now m] frames IH]; intros w.
  - split; [done|]. unfold shownOf.
    destruct (MessagesSlice.selectedChatId _); simpl; by rewrite app_nil_r.
  - change (deliver ((now, m) :: frames) w)
      with (deliver frames (exec (onmessage now m) w)).
    destruct (IH (exec (onmessage now m) w)) as [Hsel Hitems].
    rewrite Hsel, Hitems, !onmessage_messages. clear IH Hsel Hitems.
    unfold shownOf, targets.
    destruct (String.eqb (type m) "NEW_MESSAGE") eqn:Hty.
    + rewrite addMessage_selected. split; [done|].
      unfold MessagesSlice.addMessage.
      destruct (MessagesSlice.selectedChatId (messages (store w))) as [sel|] eqn:E;
        [|done].
      change (MessagesSlice.chatId (asMessage (data m))) with (chatId (data m)).
      rewrite String.eqb_sym.
      destruct (String.eqb (chatId (data m)) sel) eqn:Hc.
      * rewrite filter_cons_True by (simpl; by rewrite Hty, Hc).
        simpl. by rewrite <- app_assoc.
      * by rewrite filter_cons_False by (simpl; rewrite Hty, Hc; done).
    + split; [done|].
      destruct (MessagesSlice.selectedChatId (messages (store w))) as [sel|]; [|done].
      by rewrite filter_cons_False by (simpl; rewrite Hty; done).
Qed.

End MessageView.

(** ** The connection manager: opening and closing *)

Section OpenClose.

Import ConnectionSlice WebSocketManager Scenario.

(** Every transition into Connected resets the attempt counter, in the
    manager and in the store, clears the error, records the time and arms
    exactly one heartbeat interval of 10 s; it clears no timer and opens
    no transport. *)
Theorem open_event_resets_attempts (now : Z) (s : positive) (w : World) :
  sockets (host w) !! s = Some CONNECTING →
  ∃ w', step now (SocketOpen s) w = Some w'
        ∧ status (connection (store w')) = Connected
        ∧ ConnectionSlice.reconnectAttempt (connection (store w')) = 0%nat
        ∧ error (connection (store w')) = None
        ∧ lastHeartbeat (connection (store w')) = now
        ∧ WebSocketManager.reconnectAttempt (this w') = 0%nat
        ∧ sockets (host w') = <[s := OPEN]> (sockets (host w))
        ∧ timers (host w')
          = <[nextTimer (host w) := mkTimer HeartbeatPing 10000 true]> (timers (host w))
        ∧ heartbeatInterval (this w') = Some (nextTimer (host w))
        ∧ nextSocket (host w') = nextSocket (host w)
        ∧ ws (this w') = ws (this w).
Proof.
  destruct w as [[sock a rt hi ht] st [ss ts ns nt sn]]. simpl.
  intros Hs. rewrite Hs. eexists. split; [reflexivity|]. by run_method.
Qed.

Lemma open_event_resets_attempts_witness :
  ∃ w', step 40 (SocketOpen 1) (exec (connect None) initialWorld) = Some w'
        ∧ status (connection (store w')) = Connected
        ∧ WebSocketManager.reconnectAttempt (this w') = 0%nat.
Proof.
  destruct (open_event_resets_attempts 40 1 (exec (connect None) initialWorld))
    as (w' & Hstep & Hst & _ & _ & _ & Ha & _); [reflexivity|].
  exists w'. split; [exact Hstep|]. split; assumption.
Defined.

(** [disconnect()] is idempotent: a second call changes nothing. *)
Theorem disconnect_idempotent (w : World) :
  exec disconnect (exec disconnect w) = exec disconnect w.
Proof.
  set (wipe := fun (l : list positive) (m : gmap positive Timer) =>
                  foldr (fun j (acc : gmap positive Timer) => delete j acc) m l).
  assert (Hdel : ∀ (m : gmap positive Timer) (l : list positive),
             wipe l (wipe l m) = wipe l m).
  { intros m l. apply map_eq. intros k.
    assert (Hl : ∀ m' : gmap positive Timer,
               wipe l m' !! k = if decide (k ∈ l) then None else m' !! k).
    { intros m'. unfold wipe. induction l as [|j l IH]; simpl; [done|].
      rewrite lookup_delete, IH.
      destruct (decide (j = k)) as [->|Hne].
      - rewrite decide_True by set_solver. done.
      - destruct (decide (k ∈ l)).
        + rewrite decide_True by set_solver. done.
        + rewrite decide_False by set_solver. done. }
    rewrite !Hl. by destruct (decide (k ∈ l)). }
  destruct w as [[sock a rt hi ht] st [ss ts ns nt sn]].
  destruct sock as [s|], hi as [i|], ht as [e|], rt as [r|]; run_method;
    repeat match goal with
           | |- context [ss !! ?k] => destruct (ss !! k) as [[]|]
           end; run_method;
    repeat match goal with
           | |- mkWorld _ _ _ = mkWorld _ _ _ => f_equal
           | |- mkHost _ _ _ _ _ = mkHost _ _ _ _ _ => f_equal
           end;
    first [ reflexivity
          | exact (Hdel ts [_; _; _])
          | exact (Hdel ts [_; _])
          | exact (Hdel ts [_]) ].
Qed.

End OpenClose.

(** ** The connection manager: what a turn of the event loop can do *)

Ltac step_cases w e H :=
  destruct w as [[sock a rt hi ht] st [ss ts ns nt sn]];
  destruct e as [thr| |s|s m|s|s|t thr]; simpl in H;
  repeat match type of H with
         | context [ss !! ?k] => destruct (ss !! k) as [[]|] eqn:?
         | context [ts !! ?k] => destruct (ts !! k) as [[[] ? []]|] eqn:?
         end;
  try discriminate H;
  try destruct thr as [msg|];
  destruct sock as [cur|], hi as [i|], ht as [x|], rt as [r|];
  revert H; run_method;
  repeat match goal with
         | |- context [ss !! ?k] => destruct (ss !! k) as [[]|] eqn:?
         | |- context [(?n <? ?k)%nat] => destruct (n <? k)%nat
         end;
  run_method; intros H; injection H as <-.

Section Turns.

Import ConnectionSlice WebSocketManager Scenario.

Lemma onmessage_host now m w :
  sent (host (exec (onmessage now m) w)) = sent (host w)
  ∧ nextSocket (host (exec (onmessage now m) w)) = nextSocket (host w)
  ∧ sockets (host (exec (onmessage now m) w)) = sockets (host w).
Proof.
  unfold onmessage, handleMessage.
  destruct (String.eqb (type m) "NEW_MESSAGE"); [done|].
  destruct (String.eqb (type m) "PONG"); [|done].
  by destruct w as [[sock a rt hi [t|]] st h].
Qed.

(** The only frame the manager ever sends is a PING, and only from the
    heartbeat interval, on the current socket, while that socket is open. *)
Theorem only_pings_are_sent (now : Z) (e : Event) (w w' : World) :
  step now e w = Some w' →
  sent (host w') = sent (host w)
  ∨ ∃ s t tm,
      (e = TimerFires t None ∨ ∃ msg, e = TimerFires t (Some msg))
      ∧ timers (host w) !! t = Some tm
      ∧ callback tm = HeartbeatPing
      ∧ ws (this w) = Some s
      ∧ sockets (host w) !! s = Some OPEN
      ∧ sent (host w') = sent (host w) ++ [(s, "PING")].
Proof.
  intros H. step_cases w e H; simpl;
    first [ solve [left; reflexivity]
          | solve [left; exact (proj1 (onmessage_host now m _))]
          | solve [right; do 3 eexists; split_all; eauto] ].
Qed.

Lemma only_pings_are_sent_witness :
  sent (host (default initialWorld
                (run (openSession ++ [(10040, TimerFires 1 None)]) initialWorld)))
  = [] ++ [(1%positive, "PING")].
Proof.
  destruct (only_pings_are_sent 10040 (TimerFires 1 None)
              (default initialWorld (run openSession initialWorld))
              (default initialWorld
                 (run (openSession ++ [(10040, TimerFires 1 None)]) initialWorld))
              eq_refl) as [H|(s & t & tm & _ & _ & _ & Hws & _ & H)].
  - by vm_compute in H.
  - injection Hws as <-. exact H.
Defined.

(** A turn opens at most one transport, and only [connect()] does: called
    by the user, by a reconnect timer or by a heartbeat expiry.  Socket
    events, heartbeat pings and [disconnect()] never do. *)
Theorem transports_open_only_in_connect (now : Z) (e : Event) (w w' : World) :
  step now e w = Some w' →
  (nextSocket (host w') = nextSocket (host w)
   ∧ dom (sockets (host w')) ⊆ dom (sockets (host w)))
  ∨ (nextSocket (host w') = Pos.succ (nextSocket (host w))
     ∧ sockets (host w') !! nextSocket (host w) = Some CONNECTING
     ∧ ws (this w') = Some (nextSocket (host w))
     ∧ status (connection (store w')) = Connecting
     ∧ (e = CallConnect None
        ∨ ∃ t tm, e = TimerFires t None
                  ∧ timers (host w) !! t = Some tm
                  ∧ callback tm ≠ HeartbeatPing)).
Proof.
  intros H. step_cases w e H; simpl;
    first [ solve [left; split;
                     [exact (proj1 (proj2 (onmessage_host now m _)))
                     |refine (eq_ind_r
                                (fun x : gmap positive ReadyState => dom x ⊆ dom _) _
                                (proj2 (proj2 (onmessage_host now m _)))); done]]
          | solve [left; split; [reflexivity|];
                   rewrite ?dom_insert_L;
                   repeat match goal with
                          | E : _ !! _ = Some _ |- _ =>
                              apply elem_of_dom_2 in E
                          end; set_solver]
          | solve [right; split_all;
                   [ reflexivity
                   | by rewrite lookup_insert_eq
                   | reflexivity
                   | reflexivity
                   | first [ by left
                           | right; do 2 eexists; split_all; eauto; done ] ]] ].
Qed.

Lemma transports_open_only_in_connect_witness :
  nextSocket (host (exec disconnect
                      (default initialWorld (run openSession initialWorld))))
  = 2%positive.
Proof.
  destruct (transports_open_only_in_connect 50 CallDisconnect
              (default initialWorld (run openSession initialWorld))
              (exec disconnect (default initialWorld (run openSession initialWorld)))
              eq_refl) as [[H _]|[H _]].
  - exact H.
  - by vm_compute in H.
Defined.

End Turns.

(** ** The connection manager: a heartbeat timeout doubles the connection *)

Section Parallel.

Import ConnectionSlice WebSocketManager Scenario.



End Parallel.

(** ** The store: schema constraints and errors *)

Section StoreInvariant.

Import Db.

Lemma hasChat_true c d : hasChat c d = true ↔ c ∈ id <$> chats d.
Proof.
  unfold hasChat. rewrite existsb_exists, list_elem_of_fmap. split.
  - intros (r & Hin & He). apply String.eqb_eq in He.
    exists r. split; [done|]. by apply list_elem_of_In.
  - intros (r & -> & Hin). exists r. split; [by apply list_elem_of_In|].
    apply String.eqb_refl.
Qed.

Lemma hasMessage_true m d : hasMessage m d = true ↔ m ∈ mid <$> messages d.
Proof.
  unfold hasMessage. rewrite existsb_exists, list_elem_of_fmap. split.
  - intros (r & Hin & He). apply String.eqb_eq in He.
    exists r. split; [done|]. by apply list_elem_of_In.
  - intros (r & -> & Hin). exists r. split; [by apply list_elem_of_In|].
    apply String.eqb_refl.
Qed.

Lemma updateWhereId_ids c f l :
  (∀ r, id (f r) = id r) →
  id <$> map (fun r => if String.eqb (id r) c then f r else r) l = id <$> l.
Proof.
  intros Hf. induction l as [|r l IH]; [done|].
  simpl. f_equal; [|exact IH].
  by destruct (String.eqb (id r) c).
Qed.

Lemma updateWhereId_wellFormed c f d d' :
  (∀ r, id (f r) = id r) →
  updateWhereId c f d = inr d' → wellFormed d → wellFormed d'.
Proof.
  intros Hf [= <-] (Hc & Hm & Hfk). unfold wellFormed. simpl.
  rewrite updateWhereId_ids by done.
  split; [done|]. split; [done|].
  intros m Hin. specialize (Hfk m Hin).
  apply hasChat_true. apply hasChat_true in Hfk. simpl.
  by rewrite updateWhereId_ids.
Qed.

Lemma sqlInsertMessage_wellFormed row d d' :
  sqlInsertMessage row d = inr d' → wellFormed d → wellFormed d'.
Proof.
  unfold sqlInsertMessage.
  destruct (hasMessage (mid row) d) eqn:Hdup; [done|].
  destruct (hasChat (chatId row) d) eqn:Hfk; simpl; [|done].
  intros [= <-] (Hc & Hm & Hall). unfold wellFormed. simpl.
  split; [done|]. split.
  - rewrite fmap_app. apply NoDup_app. split; [done|]. split.
    + intros x Hx. simpl. intros Hin. apply list_elem_of_singleton in Hin. subst x.
      apply hasMessage_true in Hx. congruence.
    + apply NoDup_singleton.
  - intros m Hin. apply elem_of_app in Hin as [Hin|Hin].
    + exact (Hall m Hin).
    + apply list_elem_of_singleton in Hin. by subst m.
Qed.

(** The commands keep the constraints of the schema: whatever they are
    called with and whether they return or throw, ids stay unique in both
    tables and every message keeps referring to an existing chat. *)
Theorem commands_keep_schema
    (cond1 cond2 : option string) (c m : string) (t : Z) (sender body : string)
    (inc : bool) (d : Database) :
  wellFormed d →
  wellFormed (insertMessage cond1 cond2 c m t sender body inc d).2
  ∧ wellFormed (markChatAsRead cond1 c d).2.
Proof.
  intros Hwf. split.
  - unfold insertMessage, runStatement.
    destruct cond1 as [e1|]; [done|].
    destruct (sqlInsertMessage _ d) as [e|d1] eqn:E1; [done|].
    pose proof (sqlInsertMessage_wellFormed _ _ _ E1 Hwf) as Hwf1.
    destruct cond2 as [e2|]; [done|].
    destruct inc; simpl.
    + by apply (updateWhereId_wellFormed c
                  (fun r => mkChatRow (id r) (title r) t (unreadCount r + 1)) d1).
    + by apply (updateWhereId_wellFormed c
                  (fun r => mkChatRow (id r) (title r) t (unreadCount r)) d1).
  - unfold markChatAsRead, runStatement.
    destruct cond1 as [e1|]; [done|]. simpl.
    by apply (updateWhereId_wellFormed c
                (fun r => mkChatRow (id r) (title r) (lastMessageAt r) 0) d).
Qed.

Lemma commands_keep_schema_witness :
  wellFormed
    (insertMessage None None "c1" "m1" 200 "user_001" "Got it, thanks!" true
       Scenario.storeWithOneChat).2.
Proof.
  apply (commands_keep_schema None None "c1" "m1" 200 "user_001" "Got it, thanks!"
           true Scenario.storeWithOneChat).
  split; [apply NoDup_singleton|]. split; [apply NoDup_nil_2|].
  intros r Hr. by apply elem_of_nil in Hr.
Defined.

(** When [insertMessage] throws and when it returns.  With no engine
    error it returns exactly when the message id is new and the chat
    exists; a second insert of a message id that is already stored throws
    and changes nothing, so a replayed message is never counted twice; and
    an insert into a chat that does not exist throws and changes nothing. *)
Theorem insertMessage_rejects_duplicates_and_orphans
    (c m : string) (t : Z) (sender body : string) (inc : bool) (d : Database) :
  ((insertMessage None None c m t sender body inc d).1 = Returned
   ↔ hasMessage m d = false ∧ hasChat c d = true)
  ∧ (hasChat c d = false →
     ∃ msg, insertMessage None None c m t sender body inc d = (Threw msg, d))
  ∧ (∀ d1, insertMessage None None c m t sender body inc d = (Returned, d1) →
     ∀ cond1 cond2 c' t' sender' body' inc',
     ∃ msg, insertMessage cond1 cond2 c' m t' sender' body' inc' d1 = (Threw msg, d1)).
Proof.
  split; [|split].
  - unfold insertMessage, runStatement, sqlInsertMessage. simpl.
    destruct (hasMessage m d); simpl; [naive_solver|].
    destruct (hasChat c d); simpl; [|naive_solver].
    by destruct inc.
  - intros Hc. unfold insertMessage, runStatement, sqlInsertMessage. simpl.
    destruct (hasMessage m d); simpl; [eauto|]. rewrite Hc. simpl. eauto.
  - intros d1 Hret cond1 cond2 c' t' sender' body' inc'.
    assert (Hin : hasMessage m d1 = true).
    { revert Hret. unfold insertMessage, runStatement, sqlInsertMessage. simpl.
      destruct (hasMessage m d); simpl; [done|].
      destruct (hasChat c d); simpl; [|done].
      intros Hret. apply hasMessage_true.
      destruct inc; injection Hret as <-; simpl;
        rewrite fmap_app; apply elem_of_app; right; by apply list_elem_of_singleton. }
    unfold insertMessage, runStatement, sqlInsertMessage. simpl.
    destruct cond1 as [e|]; [eauto|]. rewrite Hin. eauto.
Qed.

Lemma insertMessage_rejects_duplicates_and_orphans_witness :
  (∃ msg, insertMessage None None "nochat" "m1" 200 "user_001" "hello" true
            Scenario.storeWithOneChat = (Threw msg, Scenario.storeWithOneChat))
  ∧ ∃ msg, insertMessage None None "c1" "m1" 300 "user_002" "again" true
             (insertMessage None None "c1" "m1" 200 "user_001" "hello" true
                Scenario.storeWithOneChat).2
           = (Threw msg,
              (insertMessage None None "c1" "m1" 200 "user_001" "hello" true
                 Scenario.storeWithOneChat).2).
Proof.
  destruct (insertMessage_rejects_duplicates_and_orphans "nochat" "m1" 200
              "user_001" "hello" true Scenario.storeWithOneChat) as (_ & Horphan & _).
  destruct (insertMessage_rejects_duplicates_and_orphans "c1" "m1" 200
              "user_001" "hello" true Scenario.storeWithOneChat) as (_ & _ & Hdup).
  split.
  - apply Horphan. reflexivity.
  - apply (Hdup _ eq_refl None None "c1" 300 "user_002" "again" true).
Defined.

End StoreInvariant.

(** ** The store: the chat list query *)

Section ChatQuery.

Import Db.

Lemma newerFirst_transitive : Relations_1.Transitive newerFirst.
Proof. unfold newerFirst. intros a b c ? ?. lia. Qed.

Lemma orderBy_head_is_newest l top rest :
  orderByLastMessageAtDesc l = top :: rest →
  ∀ r, r ∈ l → lastMessageAt r ≤ lastMessageAt top.
Proof.
  intros Hord r Hr.
  pose proof (Sorted_StronglySorted newerFirst_transitive (orderBy_sorted l)) as Hs.
  rewrite Hord in Hs. apply StronglySorted_inv in Hs as [_ Hall].
  rewrite <- orderBy_perm, Hord in Hr.
  apply elem_of_cons in Hr as [->|Hr]; [lia|].
  rewrite Forall_forall in Hall. by apply (Hall r).
Qed.

(** After a message is stored with a timestamp newer than every chat's,
    its chat is the first row of the first page, with the new timestamp
    and, when asked for, one more unread message. *)
Theorem newest_chat_is_listed_first
    (c m : string) (t : Z) (sender body : string) (inc : bool)
    (d d1 : Database) (limit : Z) :
  insertMessage None None c m t sender body inc d = (Returned, d1) →
  (∀ r, r ∈ chats d → lastMessageAt r < t) →
  0 < limit →
  ∃ p old rest,
    getChats None 0 limit d1 = inr p
    ∧ old ∈ chats d
    ∧ id old = c
    ∧ page_chats p
      = mkChatRow c (title old) t (if inc then unreadCount old + 1 else unreadCount old)
        :: rest.
Proof.
  intros Hret Hnew Hlim.
  destruct (insertMessage_without_engine_error c m t sender body inc d)
    as [[msg Hthrow]|[Hchat Hok]]; [congruence|].
  rewrite Hok in Hret. injection Hret as <-.
  set (upd := fun r : ChatRow =>
                if String.eqb (id r) c
                then mkChatRow (id r) (title r) t
                       (if inc then unreadCount r + 1 else unreadCount r)
                else r).
  apply hasChat_true, list_elem_of_fmap in Hchat as (r0 & Hr0 & Hin0).
  assert (Hupd0 : upd r0 ∈ map upd (chats d)).
  { apply list_elem_of_In, in_map, list_elem_of_In, Hin0. }
  destruct (orderByLastMessageAtDesc (map upd (chats d))) as [|top rest] eqn:Hord.
  { apply (f_equal length) in Hord. rewrite orderBy_perm in Hord.
    destruct (chats d); [by apply elem_of_nil in Hin0|done]. }
  pose proof (orderBy_head_is_newest _ _ _ Hord _ Hupd0) as Hge.
  assert (Htop : top ∈ map upd (chats d)).
  { rewrite <- orderBy_perm, Hord. apply elem_of_cons. by left. }
  apply list_elem_of_In, in_map_iff in Htop as (r1 & Hr1 & Hin1).
  apply list_elem_of_In in Hin1.
  assert (Hk0 : lastMessageAt (upd r0) = t).
  { unfold upd. rewrite <- Hr0, String.eqb_refl. done. }
  assert (Hid1 : String.eqb (id r1) c = true).
  { destruct (String.eqb (id r1) c) eqn:E; [done|].
    unfold upd in Hr1. rewrite E in Hr1. subst top.
    specialize (Hnew r1 Hin1). lia. }
  eexists. exists r1, (take (Z.to_nat limit - 1) rest).
  split; [reflexivity|]. split; [done|]. split; [by apply String.eqb_eq|].
  simpl. fold upd. rewrite Hord, limitOffset_nonneg by lia. simpl.
  destruct (Z.to_nat limit) as [|n] eqn:En; [lia|].
  simpl. rewrite Nat.sub_0_r. f_equal.
  subst top. unfold upd. rewrite Hid1. apply String.eqb_eq in Hid1. by rewrite Hid1.
Qed.

Lemma newest_chat_is_listed_first_witness :
  ∃ p old rest,
    getChats None 0 50
      (insertMessage None None "c1" "m1" 200 "user_001" "hello" true
         Scenario.storeWithOneChat).2 = inr p
    ∧ old ∈ chats Scenario.storeWithOneChat
    ∧ id old = "c1"
    ∧ page_chats p = mkChatRow "c1" (title old) 200 (unreadCount old + 1) :: rest.
Proof.
  apply (newest_chat_is_listed_first "c1" "m1" 200 "user_001" "hello" true
           Scenario.storeWithOneChat _ 50).
  - reflexivity.
  - intros r Hr. apply list_elem_of_singleton in Hr. subst r. simpl. lia.
  - lia.
Defined.

(** Page sizes and [hasMore].  For a window that starts inside or after
    the table, the page holds min(limit, total - offset) rows (none when
    the offset is past the end), [total] is the size of the table, and
    [hasMore] is true exactly when the next window is not empty. *)
Theorem getChats_hasMore_iff_rows_remain (offset limit next : Z) (d : Database) :
  0 ≤ offset → 0 ≤ limit → 0 < next →
  ∃ p p',
    getChats None offset limit d = inr p
    ∧ getChats None (offset + limit) next d = inr p'
    ∧ page_total p = Z.of_nat (length (chats d))
    ∧ Z.of_nat (length (page_chats p))
      = Z.min limit (Z.max 0 (page_total p - offset))
    ∧ (page_hasMore p = true ↔ page_chats p' ≠ []).
Proof.
  intros Ho Hl Hn. do 2 eexists.
  split; [reflexivity|]. split; [reflexivity|]. simpl.
  split; [reflexivity|].
  rewrite !limitOffset_nonneg by lia.
  rewrite length_take, length_drop.
  pose proof (Permutation_length (orderBy_perm (chats d))) as Hlen.
  rewrite Hlen. split; [lia|].
  rewrite Z.ltb_lt. split.
  - intros Hlt Hnil. apply (f_equal length) in Hnil.
    rewrite length_take, length_drop, Hlen in Hnil. simpl in Hnil. lia.
  - intros Hne.
    destruct (decide (offset + limit < Z.of_nat (length (chats d)))) as [|Hge]; [done|].
    exfalso. apply Hne. rewrite drop_ge by (rewrite Hlen; lia). by rewrite take_nil.
Qed.

Lemma getChats_hasMore_iff_rows_remain_witness :
  ∃ p p',
    getChats None 100 50 (Scenario.seededDb 120) = inr p
    ∧ getChats None (100 + 50) 50 (Scenario.seededDb 120) = inr p'
    ∧ page_total p = Z.of_nat (length (chats (Scenario.seededDb 120)))
    ∧ Z.of_nat (length (page_chats p)) = Z.min 50 (Z.max 0 (page_total p - 100))
    ∧ (page_hasMore p = true ↔ page_chats p' ≠ []).
Proof.
  apply (getChats_hasMore_iff_rows_remain 100 50 50 (Scenario.seededDb 120)); lia.
Defined.

Lemma insertDesc_map f c l :
  (∀ r, lastMessageAt (f r) = lastMessageAt r) →
  insertDesc (f c) (map f l) = map f (insertDesc c l).
Proof.
  intros Hf. induction l as [|r l IH]; simpl; [done|].
  rewrite !Hf. destruct (lastMessageAt r <=? lastMessageAt c); simpl; [done|].
  by rewrite IH.
Qed.

Lemma orderBy_map f l :
  (∀ r, lastMessageAt (f r) = lastMessageAt r) →
  orderByLastMessageAtDesc (map f l) = map f (orderByLastMessageAtDesc l).
Proof.
  intros Hf. induction l as [|r l IH]; [done|].
  change (orderByLastMessageAtDesc (map f (r :: l)))
    with (insertDesc (f r) (orderByLastMessageAtDesc (map f l))).
  change (orderByLastMessageAtDesc (r :: l))
    with (insertDesc r (orderByLastMessageAtDesc l)).
  rewrite IH. by apply insertDesc_map.
Qed.

Lemma limitOffset_map {A B} (f : A → B) limit offset (l : list A) :
  limitOffset limit offset (map f l) = map f (limitOffset limit offset l).
Proof.
  unfold limitOffset. destruct (limit <? 0).
  - symmetry. apply (fmap_drop f).
  - rewrite <- (fmap_drop f). symmetry. apply (fmap_take f).
Qed.

(** Marking a chat as read never reorders or repaginates the chat list:
    every page lists the same chats at the same positions with the same
    timestamps, titles, total and [hasMore] as before; a second call
    changes nothing more. *)
Theorem mark_read_keeps_pages (cond : option string) (x : string)
    (offset limit : Z) (d : Database) :
  ∃ p p',
    getChats None offset limit d = inr p
    ∧ getChats None offset limit (markChatAsRead cond x d).2 = inr p'
    ∧ id <$> page_chats p' = id <$> page_chats p
    ∧ lastMessageAt <$> page_chats p' = lastMessageAt <$> page_chats p
    ∧ title <$> page_chats p' = title <$> page_chats p
    ∧ page_total p' = page_total p
    ∧ page_hasMore p' = page_hasMore p
    ∧ (markChatAsRead cond x (markChatAsRead cond x d).2).2
      = (markChatAsRead cond x d).2.
Proof.
  do 2 eexists. split; [reflexivity|]. split; [reflexivity|].
  destruct cond as [msg|]; simpl; [by split_all|].
  set (reset := fun c : ChatRow =>
                  if String.eqb (id c) x
                  then mkChatRow (id c) (title c) (lastMessageAt c) 0 else c).
  assert (Hk : ∀ r, lastMessageAt (reset r) = lastMessageAt r).
  { intros r. unfold reset. by destruct (String.eqb (id r) x). }
  assert (Hi : ∀ r, id (reset r) = id r).
  { intros r. unfold reset. by destruct (String.eqb (id r) x). }
  assert (Ht : ∀ r, title (reset r) = title r).
  { intros r. unfold reset. by destruct (String.eqb (id r) x). }
  rewrite orderBy_map, limitOffset_map by done.
  rewrite length_map.
  assert (Hproj : ∀ (B : Type) (g : ChatRow → B) (l : list ChatRow),
             (∀ r, g (reset r) = g r) → g <$> map reset l = g <$> l).
  { intros B g l Hg. induction l as [|r l IH]; [done|].
    simpl. f_equal; [apply Hg|exact IH]. }
  split_all; try done.
  - by apply Hproj.
  - by apply Hproj.
  - by apply Hproj.
  - f_equal. rewrite map_map. apply map_ext. intros r. unfold reset.
    destruct (String.eqb (id r) x) eqn:E; simpl; by rewrite E.
Qed.

End ChatQuery.

(** ** The store: the message history query *)

Section MessageQuery.

Import Db.

Lemma insertTsDesc_perm m l : insertTsDesc m l ≡ₚ m :: l.
Proof.
  induction l as [|n r IH]; simpl; [done|].
  destruct (ts n <=? ts m); [done|].
  rewrite IH. apply Permutation_swap.
Qed.

Lemma orderByTs_perm l : orderByTsDesc l ≡ₚ l.
Proof.
  induction l as [|m r IH]; simpl; [done|].
  rewrite insertTsDesc_perm. by rewrite IH.
Qed.

Lemma insertTsDesc_sorted m l :
  Sorted (flip olderFirst) l → Sorted (flip olderFirst) (insertTsDesc m l).
Proof.
  induction l as [|n r IH]; simpl; intros Hs.
  - repeat constructor.
  - destruct (ts n <=? ts m) eqn:E.
    + constructor; [done|]. constructor. unfold flip, olderFirst. lia.
    + apply Sorted_inv in Hs as [Hr Hn].
      constructor; [by apply IH|].
      destruct r as [|e r']; simpl.
      * constructor. unfold flip, olderFirst. lia.
      * destruct (ts e <=? ts m).
        -- constructor. unfold flip, olderFirst. lia.
        -- constructor. by apply HdRel_inv in Hn.
Qed.

Lemma orderByTs_sorted l : Sorted (flip olderFirst) (orderByTsDesc l).
Proof.
  induction l as [|m r IH]; simpl; [constructor|]. by apply insertTsDesc_sorted.
Qed.

Lemma olderFirst_flip_transitive : Relations_1.Transitive (flip olderFirst).
Proof. unfold flip, olderFirst. intros a b c ? ?. lia. Qed.

Lemma limitOffset_strongly_sorted {A} (R : relation A) limit offset (l : list A) :
  StronglySorted R l → StronglySorted R (limitOffset limit offset l).
Proof.
  intros Hs.
  assert (Hd : StronglySorted R (drop (Z.to_nat offset) l)).
  { rewrite <- (take_drop (Z.to_nat offset) l) in Hs.
    by apply sorting.StronglySorted_app_1_r in Hs. }
  unfold limitOffset. destruct (limit <? 0); [done|].
  rewrite <- (take_drop (Z.to_nat limit) (drop (Z.to_nat offset) l)) in Hd.
  by apply sorting.StronglySorted_app_1_l in Hd.
Qed.

Lemma getMessages_rows (c : string) (offset limit : Z) (d : Database) :
  Forall (fun m => chatId m = c ∧ m ∈ messages d)
    (reverse (limitOffset limit offset (orderByTsDesc (messagesOfChat c d)))).
Proof.
  apply Forall_forall. intros m Hm.
  rewrite elem_of_reverse in Hm.
  pose proof (elem_of_sublist _ _ m Hm
                (limitOffset_sublist limit offset
                   (orderByTsDesc (messagesOfChat c d)))) as Hin.
  rewrite orderByTs_perm in Hin.
  apply list_elem_of_In, filter_In in Hin as [Hin Hc].
  split; [by apply String.eqb_eq|by apply list_elem_of_In].
Qed.

(** A page of the message history lists messages of the requested chat
    only, each of them stored, oldest first, at most [limit] of them, and
    [total] counts the messages of that chat. *)
Theorem getMessages_page_is_ascending (c : string) (offset limit : Z) (d : Database) :
  0 ≤ limit →
  ∃ p,
    getMessages None c offset limit d = inr p
    ∧ Sorted olderFirst (page_messages p)
    ∧ Forall (fun m => chatId m = c ∧ m ∈ messages d) (page_messages p)
    ∧ Z.of_nat (length (page_messages p)) ≤ limit
    ∧ page_messages_total p
      = Z.of_nat (length (List.filter (fun m => String.eqb (chatId m) c) (messages d))).
Proof.
  intros Hl. eexists. split; [reflexivity|]. simpl. split_all.
  - apply (sorting.Sorted_reverse (flip olderFirst)).
    apply StronglySorted_Sorted, limitOffset_strongly_sorted.
    apply (Sorted_StronglySorted olderFirst_flip_transitive), orderByTs_sorted.
  - apply getMessages_rows.
  - rewrite length_reverse, limitOffset_nonneg, length_take by done. lia.
  - reflexivity.
Qed.

Lemma getMessages_page_is_ascending_witness :
  ∃ p,
    getMessages None "c1" 0 50
      (insertMessage None None "c1" "m2" 150 "user_002" "older" true
         (insertMessage None None "c1" "m1" 200 "user_001" "newer" true
            Scenario.storeWithOneChat).2).2 = inr p
    ∧ Sorted olderFirst (page_messages p)
    ∧ Forall (fun m => chatId m = "c1") (page_messages p)
    ∧ length (page_messages p) = 2%nat.
Proof.
  destruct (getMessages_page_is_ascending "c1" 0 50
              (insertMessage None None "c1" "m2" 150 "user_002" "older" true
                 (insertMessage None None "c1" "m1" 200 "user_001" "newer" true
                    Scenario.storeWithOneChat).2).2) as (p & Hp & Hs & Hall & _);
    [lia|].
  exists p. split; [exact Hp|]. split; [exact Hs|]. split.
  - eapply Forall_impl; [exact Hall|]. by intros m [? _].
  - injection Hp as <-. reflexivity.
Defined.

(** The history pages walk backwards in time: the page of the next older
    window, put in front of a page, is the page of the joined window. *)
Theorem getMessages_older_page_prepends (c : string) (offset l1 l2 : Z) (d : Database) :
  0 ≤ offset → 0 ≤ l1 → 0 ≤ l2 →
  ∃ newer older joined,
    getMessages None c offset l1 d = inr newer
    ∧ getMessages None c (offset + l1) l2 d = inr older
    ∧ getMessages None c offset (l1 + l2) d = inr joined
    ∧ page_messages older ++ page_messages newer = page_messages joined.
Proof.
  intros Ho H1 H2. do 3 eexists.
  split; [reflexivity|]. split; [reflexivity|]. split; [reflexivity|].
  simpl. rewrite <- reverse_app. f_equal. by apply limitOffset_adjacent.
Qed.

Lemma getMessages_older_page_prepends_witness :
  ∃ newer older joined,
    getMessages None "c1" 0 1
      (insertMessage None None "c1" "m2" 150 "user_002" "older" true
         (insertMessage None None "c1" "m1" 200 "user_001" "newer" true
            Scenario.storeWithOneChat).2).2 = inr newer
    ∧ getMessages None "c1" (0 + 1) 1
        (insertMessage None None "c1" "m2" 150 "user_002" "older" true
           (insertMessage None None "c1" "m1" 200 "user_001" "newer" true
              Scenario.storeWithOneChat).2).2 = inr older
    ∧ getMessages None "c1" 0 (1 + 1)
        (insertMessage None None "c1" "m2" 150 "user_002" "older" true
           (insertMessage None None "c1" "m1" 200 "user_001" "newer" true
              Scenario.storeWithOneChat).2).2 = inr joined
    ∧ page_messages older ++ page_messages newer = page_messages joined.
Proof.
  apply (getMessages_older_page_prepends "c1" 0 1 1); lia.
Defined.

End MessageQuery.

(** ** The renderer: selecting a chat, loading from the store *)

Section RendererProperties.

Import WebSocketManager Stream Main Renderer.

(** Opening a chat resets its unread counter, selects it, empties the
    view and starts loading; a message that then arrives for that very
    chat is appended to the view and still counted as unread. *)
Theorem open_chat_still_counts_unread
    (x : string) (now : Z) (d : MessageData) (w : World) (u : Z) :
  chatId d = x →
  ChatsSlice.unreadCountOf x (chats (store w)) = Some u →
  let w1 := exec (dispatch (handleSelectChat x)) w in
  let w2 := exec (handleNewMessage now d) w1 in
  ChatsSlice.unreadCountOf x (chats (store w1)) = Some 0
  ∧ MessagesSlice.selectedChatId (messages (store w1)) = Some x
  ∧ MessagesSlice.items (messages (store w1)) = []
  ∧ MessagesSlice.loading (messages (store w1)) = true
  ∧ ChatsSlice.unreadCountOf x (chats (store w2)) = Some 1
  ∧ MessagesSlice.items (messages (store w2)) = [asMessage d].
Proof.
  intros Hx Hu. cbv zeta.
  assert (H0 : ChatsSlice.unreadCountOf x
                 (chats (store (exec (dispatch (handleSelectChat x)) w))) = Some 0).
  { simpl. unfold ChatsSlice.unreadCountOf in *. simpl.
    rewrite find_mutate_found by done.
    by destruct (List.find _ (ChatsSlice.items (chats (store w)))). }
  split; [exact H0|]. split; [done|]. split; [done|]. split; [done|].
  split.
  - rewrite handleNewMessage_chats, Hx, incrementChatUnread_unreadCountOf.
    by rewrite H0.
  - simpl. unfold MessagesSlice.addMessage. simpl.
    subst x. by rewrite String.eqb_refl.
Qed.

Lemma open_chat_still_counts_unread_witness :
  ChatsSlice.unreadCountOf "b"
    (chats (store (exec (handleNewMessage 100 (data (Scenario.newMessage "b" "m1" 99)))
                     (exec (dispatch (handleSelectChat "b"))
                        (Scenario.withChats Scenario.twoChats None)))))
  = Some 1.
Proof.
  destruct (open_chat_still_counts_unread "b" 100
              (data (Scenario.newMessage "b" "m1" 99))
              (Scenario.withChats Scenario.twoChats None) 2 eq_refl eq_refl)
    as (_ & _ & _ & _ & H & _).
  exact H.
Defined.

Lemma deliver_view (frames : list (Z * WSMessage)) (w : World) :
  MessagesSlice.selectedChatId (messages (store (Scenario.deliver frames w)))
  = MessagesSlice.selectedChatId (messages (store w))
  ∧ MessagesSlice.items (messages (store (Scenario.deliver frames w)))
    = MessagesSlice.items (messages (store w))
      ++ shownOf (MessagesSlice.selectedChatId (messages (store w))) frames.
Proof.
  revert w. induction frames as [|[now m] frames IH]; intros w.
  - split; [done|]. unfold shownOf.
    destruct (MessagesSlice.selectedChatId _); simpl; by rewrite app_nil_r.
  - change (Scenario.deliver ((now, m) :: frames) w)
      with (Scenario.deliver frames (exec (onmessage now m) w)).
    destruct (IH (exec (onmessage now m) w)) as [Hsel Hitems].
    rewrite Hsel, Hitems, !onmessage_messages. clear IH Hsel Hitems.
    unfold shownOf, Scenario.targets.
    destruct (String.eqb (type m) "NEW_MESSAGE") eqn:Hty.
    + rewrite addMessage_selected. split; [done|].
      unfold MessagesSlice.addMessage.
      destruct (MessagesSlice.selectedChatId (messages (store w))) as [sel|] eqn:E;
        [|done].
      change (MessagesSlice.chatId (asMessage (data m))) with (chatId (data m)).
      rewrite String.eqb_sym.
      destruct (String.eqb (chatId (data m)) sel) eqn:Hc.
      * rewrite filter_cons_True by (simpl; by rewrite Hty, Hc).
        simpl. by rewrite <- app_assoc.
      * by rewrite filter_cons_False by (simpl; rewrite Hty, Hc; done).
    + split; [done|].
      destruct (MessagesSlice.selectedChatId (messages (store w))) as [sel|]; [|done].
      by rewrite filter_cons_False by (simpl; rewrite Hty; done).
Qed.

(** As the renderer is wired, the chat list is never loaded.  The thunk
    reads [window.electron], which the preload script does not expose, so
    every [fetchChats], on mount or from "Load more chats", is rejected
    before a request is sent: whatever the store holds and however often
    the button is clicked, the list, the total and [hasMore] are what
    they were, loading has ended and an error is recorded. *)
Theorem chat_list_is_never_loaded
    (cond : option string) (d : Db.Database) (state : ChatsSlice.ChatsState)
    (k : nat) :
  let invoke := fun offset limit => ipcRenderer_invoke (GET_CHATS cond offset limit d) in
  let state' := Nat.iter k (loadMoreChats invoke) (loadChats invoke state) in
  ChatsSlice.items state' = ChatsSlice.items state
  ∧ ChatsSlice.total state' = ChatsSlice.total state
  ∧ ChatsSlice.hasMore state' = ChatsSlice.hasMore state
  ∧ ChatsSlice.currentOffset state' = ChatsSlice.currentOffset state
  ∧ ChatsSlice.loading state' = false
  ∧ is_Some (ChatsSlice.error state').
Proof.
  cbv zeta. induction k as [|k IH].
  - simpl. split_all; try done; by eexists.
  - rewrite Nat.iter_succ.
    set (invoke := fun offset limit => ipcRenderer_invoke (GET_CHATS cond offset limit d))
      in *.
    set (st := Nat.iter k (loadMoreChats invoke) (loadChats invoke state)) in *.
    destruct IH as (Hi & Ht & Hm & Ho & Hl & He).
    unfold loadMoreChats.
    destruct (ChatsSlice.hasMore st) eqn:E; simpl;
      split_all; try done; try congruence; by eexists.
Qed.

(** As the renderer is wired, the history of a chat is never shown.
    Selecting a chat empties the view and requests the first page; the
    request is rejected like every other, which ends loading, records an
    error and leaves the view empty.  From then on the view of the chat
    shows exactly the NEW_MESSAGE frames for it that arrive, in order of
    arrival. *)
Theorem opened_chat_shows_only_live_messages
    (x : string) (cond : option string) (d : Db.Database)
    (frames : list (Z * WSMessage)) (w : World) :
  let reply := ipcRenderer_invoke (GET_MESSAGES cond x 0 50 d) in
  let rejected :=
    exec (dispatch (on_messages (fetchMessages_settled reply)))
      (exec (dispatch (handleSelectChat x)) w) in
  let w' := Scenario.deliver frames rejected in
  MessagesSlice.loading (messages (store rejected)) = false
  ∧ is_Some (MessagesSlice.error (messages (store rejected)))
  ∧ MessagesSlice.items (messages (store rejected)) = []
  ∧ MessagesSlice.selectedChatId (messages (store w')) = Some x
  ∧ MessagesSlice.items (messages (store w')) = shownOf (Some x) frames.
Proof.
  cbv zeta.
  set (rejected := exec (dispatch (on_messages (fetchMessages_settled
                     (ipcRenderer_invoke (GET_MESSAGES cond x 0 50 d)))))
                     (exec (dispatch (handleSelectChat x)) w)).
  assert (Hrej : MessagesSlice.items (messages (store rejected)) = []
                 ∧ MessagesSlice.selectedChatId (messages (store rejected)) = Some x)
    by done.
  destruct Hrej as [Hitems Hsel].
  destruct (deliver_view frames rejected) as [Hsel' Hitems'].
  split; [done|]. split; [by eexists|]. split; [exact Hitems|].
  by rewrite Hsel', Hitems', Hsel, Hitems.
Qed.

End RendererProperties.

(** ** The sync simulator *)

Section SimulatorProperties.

Import WebSocketManager Server.

(** The liveness check of a connection.  A client that answers every
    ping stays open, however many rounds pass; the first round it leaves
    unanswered is the last: the next tick clears the interval and
    terminates the socket without pinging it again. *)
Theorem unanswered_ping_terminates (sock : Socket) (n : nat) :
  state sock = OPEN → isAlive sock = true → heartbeatInterval sock = true →
  let answered := Nat.iter n (fun s => onPong (heartbeatTick s)) sock in
  let dropped := heartbeatTick (heartbeatTick answered) in
  state answered = OPEN
  ∧ isAlive answered = true
  ∧ heartbeatInterval answered = true
  ∧ pings answered = (pings sock + n)%nat
  ∧ state dropped = CLOSING
  ∧ heartbeatInterval dropped = false
  ∧ pings dropped = (pings sock + n + 1)%nat
  ∧ frames dropped = frames sock.
Proof.
  intros Ho Ha Hh. cbv zeta.
  set (round := fun s => onPong (heartbeatTick s)).
  assert (Hround : ∀ s, state s = OPEN → isAlive s = true →
            heartbeatInterval s = true →
            state (round s) = OPEN
            ∧ isAlive (round s) = true
            ∧ heartbeatInterval (round s) = true
            ∧ pings (round s) = S (pings s)
            ∧ frames (round s) = frames s).
  { intros [st al hb pg fr]. simpl. by intros -> -> ->. }
  assert (Hdrop : ∀ s, state s = OPEN → isAlive s = true →
            heartbeatInterval s = true →
            state (heartbeatTick (heartbeatTick s)) = CLOSING
            ∧ heartbeatInterval (heartbeatTick (heartbeatTick s)) = false
            ∧ pings (heartbeatTick (heartbeatTick s)) = S (pings s)
            ∧ frames (heartbeatTick (heartbeatTick s)) = frames s).
  { intros [st al hb pg fr]. simpl. by intros -> -> ->. }
  assert (Hinv : state (Nat.iter n round sock) = OPEN
                 ∧ isAlive (Nat.iter n round sock) = true
                 ∧ heartbeatInterval (Nat.iter n round sock) = true
                 ∧ pings (Nat.iter n round sock) = (pings sock + n)%nat
                 ∧ frames (Nat.iter n round sock) = frames sock).
  { induction n as [|n (IHo & IHa & IHh & IHp & IHf)].
    - simpl. split_all; try done; lia.
    - change (Nat.iter (S n) round sock) with (round (Nat.iter n round sock)).
      destruct (Hround _ IHo IHa IHh) as (Ro & Ra & Rh & Rp & Rf).
      split; [done|]. split; [done|]. split; [done|].
      split; [rewrite Rp, IHp; lia|congruence]. }
  destruct Hinv as (Io & Ia & Ih & Ip & If).
  destruct (Hdrop _ Io Ia Ih) as (Do & Dh & Dp & Df).
  split; [done|]. split; [done|]. split; [done|]. split; [done|].
  split; [done|]. split; [done|].
  split; [rewrite Dp, Ip; lia|congruence].
Qed.

Lemma unanswered_ping_terminates_witness :
  state (heartbeatTick (heartbeatTick
           (Nat.iter 3 (fun s => onPong (heartbeatTick s))
              (mkSocket OPEN true true 0 [])))) = CLOSING.
Proof.
  destruct (unanswered_ping_terminates (mkSocket OPEN true true 0 []) 3
              eq_refl eq_refl eq_refl) as (_ & _ & _ & _ & H & _).
  exact H.
Defined.

Lemma broadcastTick_throws (draw : Draw) (sim : Simulator) :
  broadcastTick draw sim = sim.
Proof. reflexivity. Qed.

(** A run of the broadcast callback changes nothing.  Its first statement
    calls [db.prepare] on the module object of db.js, which exports no
    such function; the TypeError is caught and logged, so whatever the
    callback would have drawn and whatever the store and the clients are,
    no message is stored, no chat is updated and no frame is sent. *)
Theorem broadcast_tick_changes_nothing
    (t : positive) (draw : Draw) (sim sim' : Simulator) :
  step (BroadcastFires t draw) sim = Some sim' →
  t ∈ broadcasting sim
  ∧ sim' = sim
  ∧ Db.messages (db sim') = Db.messages (db sim)
  ∧ Db.chats (db sim') = Db.chats (db sim)
  ∧ accepted sim' = accepted sim.
Proof.
  simpl. destruct (bool_decide (t ∈ broadcasting sim)) eqn:E; [|done].
  intros [= <-]. apply bool_decide_eq_true_1 in E. by rewrite broadcastTick_throws.
Qed.

Lemma broadcast_tick_changes_nothing_witness :
  step (BroadcastFires 1 (mkDraw 0 "m1" 200 "user_001" "Got it, thanks!" None None))
    (default (initial Scenario.storeWithOneChat)
       (run [Start; Connection] (initial Scenario.storeWithOneChat)))
  = Some (default (initial Scenario.storeWithOneChat)
            (run [Start; Connection] (initial Scenario.storeWithOneChat))).
Proof.
  destruct (broadcast_tick_changes_nothing 1
              (mkDraw 0 "m1" 200 "user_001" "Got it, thanks!" None None)
              (default (initial Scenario.storeWithOneChat)
                 (run [Start; Connection] (initial Scenario.storeWithOneChat)))
              (default (initial Scenario.storeWithOneChat)
                 (run [Start; Connection] (initial Scenario.storeWithOneChat))))
    as (_ & Heq & _); reflexivity.
Defined.

(** [stopWebSocketServer()] silences the simulator: the server is gone,
    the interval it knew is disarmed, every client of the server is
    closing or closed, and from then on neither [broadcastToClients] nor a
    run of the broadcast callback sends anything; a second stop changes
    nothing. *)
Theorem stop_silences_simulator (sim : Simulator) (event : WSMessage) (draw : Draw) :
  let stopped := stopWebSocketServer sim in
  wss stopped = None
  ∧ messageIntervalId stopped = None
  ∧ (∀ t, messageIntervalId sim = Some t → t ∉ broadcasting stopped)
  ∧ (∀ clients c sock, wss sim = Some clients → c ∈ clients →
       accepted stopped !! c = Some sock → state sock ≠ OPEN)
  ∧ db stopped = db sim
  ∧ broadcastToClients event stopped = stopped
  ∧ accepted (broadcastTick draw stopped) = accepted stopped
  ∧ stopWebSocketServer stopped = stopped.
Proof.
  cbv zeta. rewrite broadcastTick_throws. unfold stopWebSocketServer.
  destruct (wss sim) as [clients|] eqn:Hw, (messageIntervalId sim) as [t|] eqn:Hm;
    simpl; split_all; try done.
  all: try (intros t' [= <-]; set_solver).
  all: try (intros cs c sock [= <-] Hc; rewrite map_lookup_imap;
            destruct (accepted sim !! c) as [s0|]; simpl; [|done];
            rewrite bool_decide_eq_true_2 by done; intros [= <-];
            unfold closing; destruct (state s0) eqn:Es; simpl; congruence).
Qed.

Lemma frames_kept_step e sim sim' c sock' event :
  step e sim = Some sim' →
  accepted sim' !! c = Some sock' → event ∈ frames sock' →
  ∃ sock, accepted sim !! c = Some sock ∧ event ∈ frames sock.
Proof.
  intros Hstep Hc Hev.
  destruct e as [| | |k|k|k|t draw|cond x]; simpl in Hstep.
  - injection Hstep as <-. eauto.
  - injection Hstep as <-. revert Hc. unfold stopWebSocketServer.
    destruct (wss sim) as [clients|]; simpl; [|eauto].
    rewrite map_lookup_imap. destruct (accepted sim !! c) as [s0|]; [|done].
    simpl. intros [= <-]. exists s0. split; [done|].
    revert Hev. destruct (bool_decide (c ∈ clients)); [|done].
    unfold closing. by destruct (state s0).
  - destruct (wss sim) as [clients|]; [|done]. injection Hstep as <-.
    simpl in Hc. rewrite lookup_insert in Hc.
    destruct (decide (fresh sim = c)) as [Heq|Hne].
    + injection Hc as <-. by apply elem_of_nil in Hev.
    + eauto.
  - destruct (accepted sim !! k) as [s0|] eqn:Hk; [|done].
    destruct (heartbeatInterval s0); [|done]. injection Hstep as <-.
    simpl in Hc. rewrite lookup_insert in Hc.
    destruct (decide (k = c)) as [Heq|Hne].
    + injection Hc as <-. subst k.
      exists s0. split; [done|]. revert Hev.
      unfold heartbeatTick, ping, closing. simpl.
      by destruct (isAlive s0), (state s0).
    + eauto.
  - destruct (accepted sim !! k) as [s0|] eqn:Hk; [|done].
    destruct (state s0) eqn:Hs; try done; injection Hstep as <-;
      simpl in Hc; rewrite lookup_insert in Hc;
      (destruct (decide (k = c)) as [Heq|Hne];
        [injection Hc as <-; subst k; eauto|eauto]).
  - destruct (accepted sim !! k) as [s0|] eqn:Hk; [|done].
    destruct (state s0) eqn:Hs; try done; injection Hstep as <-;
      simpl in Hc; rewrite lookup_insert in Hc;
      (destruct (decide (k = c)) as [Heq|Hne];
        [injection Hc as <-; subst k; eauto|eauto]).
  - destruct (bool_decide (t ∈ broadcasting sim)); [|done]. injection Hstep as <-.
    rewrite broadcastTick_throws in Hc. eauto.
  - injection Hstep as <-. eauto.
Qed.

Lemma messages_same_step e sim sim' :
  step e sim = Some sim' → Db.messages (db sim') = Db.messages (db sim).
Proof.
  intros Hstep.
  destruct e as [| | |k|k|k|t draw|cond x]; simpl in Hstep.
  - by injection Hstep as <-.
  - injection Hstep as <-. unfold stopWebSocketServer.
    by destruct (wss sim).
  - destruct (wss sim); [|done]. by injection Hstep as <-.
  - destruct (accepted sim !! k) as [s0|]; [|done].
    destruct (heartbeatInterval s0); [|done]. by injection Hstep as <-.
  - destruct (accepted sim !! k) as [s0|]; [|done].
    destruct (state s0); try done; by injection Hstep as <-.
  - destruct (accepted sim !! k) as [s0|]; [|done].
    destruct (state s0); try done; by injection Hstep as <-.
  - destruct (bool_decide (t ∈ broadcasting sim)); [|done]. injection Hstep as <-.
    by rewrite broadcastTick_throws.
  - injection Hstep as <-. simpl.
    unfold Db.markChatAsRead, Db.runStatement. by destruct cond.
Qed.

(** Whatever happens to the simulator (start, stop, connections,
    heartbeats, pongs, closes, broadcast ticks, chats marked as read), it
    never sends a frame and never stores a message: the message table
    stays what it was, and a client holds no frame it did not hold before.
    A simulator that starts with no client therefore never notifies
    anyone. *)
Theorem simulator_never_sends_a_frame
    (events : list Event) (sim sim' : Simulator) :
  run events sim = Some sim' →
  Db.messages (db sim') = Db.messages (db sim)
  ∧ (∀ c sock' event, accepted sim' !! c = Some sock' → event ∈ frames sock' →
       ∃ sock, accepted sim !! c = Some sock ∧ event ∈ frames sock)
  ∧ (accepted sim = ∅ →
     ∀ c sock', accepted sim' !! c = Some sock' → frames sock' = []).
Proof.
  intros Hrun.
  assert (Hinv : Db.messages (db sim') = Db.messages (db sim)
                 ∧ ∀ c sock' event, accepted sim' !! c = Some sock' →
                     event ∈ frames sock' →
                     ∃ sock, accepted sim !! c = Some sock ∧ event ∈ frames sock).
  { revert sim Hrun. induction events as [|e events IH]; intros sim Hrun.
    - simpl in Hrun. injection Hrun as <-. split; [done|]. eauto.
    - simpl in Hrun. destruct (step e sim) as [sim1|] eqn:Hstep; [|done].
      destruct (IH sim1 Hrun) as [Hm Hf]. split.
      + rewrite Hm. by apply (messages_same_step e).
      + intros c sock' event Hc Hev.
        destruct (Hf c sock' event Hc Hev) as (s1 & Hs1 & Hin).
        by apply (frames_kept_step e sim sim1 c s1 event). }
  destruct Hinv as [Hm Hf]. split; [exact Hm|]. split; [exact Hf|].
  intros Hempty c sock' Hc.
  destruct (frames sock') as [|event rest] eqn:E; [done|].
  destruct (Hf c sock' event Hc) as (s0 & Hs0 & _).
  - rewrite E. apply list_elem_of_here.
  - by rewrite Hempty, lookup_empty in Hs0.
Qed.

Lemma simulator_never_sends_a_frame_witness :
  ∃ sim',
    run [Start; Connection;
         BroadcastFires 1 (mkDraw 0 "m1" 200 "user_001" "Got it, thanks!" None None);
         Connection; Stop]
      (initial Scenario.storeWithOneChat) = Some sim'
    ∧ Db.messages (db sim') = [].
Proof.
  eexists (default (initial Scenario.storeWithOneChat)
             (run [Start; Connection;
                   BroadcastFires 1
                     (mkDraw 0 "m1" 200 "user_001" "Got it, thanks!" None None);
                   Connection; Stop]
                (initial Scenario.storeWithOneChat))).
  split; [vm_compute; reflexivity|].
  apply (simulator_never_sends_a_frame
           [Start; Connection;
            BroadcastFires 1
              (mkDraw 0 "m1" 200 "user_001" "Got it, thanks!" None None);
            Connection; Stop]
           (initial Scenario.storeWithOneChat)).
  vm_compute; reflexivity.
Defined.

End SimulatorProperties.

